(** * SourceCred: the address codec and the cred explorer's state machine

    A shallow embedding of two pieces of the repository:

    - [addressToString] / [stringToAddress], the codec that turns a
      three-field address into one [$]-delimited string and back;
    - [StateTransitionMachine] of [src/app/credExplorer/state.js], the
      controller that sequences "load the graph" and "run PageRank" and
      guards every asynchronous commit with a [deepEqual] check against the
      state it left behind before suspending.

    JavaScript strings are modelled as [string] (a sequence of code units;
    the delimiter is the single unit [$]), thrown errors as values of a
    result type, and [async] methods as terms of a small free monad whose
    suspension points are explicit. *)

From Stdlib Require Import Ascii.
From stdpp Require Import base decidable list strings.

Set Default Proof Using "Type".

(* ================================================================== *)
(** ** Address codec *)
(* ================================================================== *)

Module Address.

(** [type Address = {repositoryName, pluginName, id}]. *)
Record Address : Type := mkAddress {
  repositoryName : string;
  pluginName : string;
  id : string;
}.

(** What the two functions throw.  The source throws a plain [Error]
    whose message embeds [JSON.stringify] of the offending value; the
    model keeps which check fired and the offending value. *)
Inductive Error : Type :=
| MustNotIncludeDelimiter (field : string) (value : string)
| ShouldHaveExactlyTwoDelimiters (input : string).

Inductive result (A : Type) : Type :=
| Ok (a : A)
| Throw (e : Error).
Arguments Ok {A} a.
Arguments Throw {A} e.

Definition DELIM : ascii := "$"%char.

(** [s.includes("$")] for a one-unit needle. *)
Fixpoint includes (c : ascii) (s : string) : bool :=
  match s with
  | EmptyString => false
  | String x s' => if decide (x = c) then true else includes c s'
  end.

(** [s.split("$")] for a one-unit separator: the pieces between
    consecutive separators, so the empty string gives one empty piece. *)
Fixpoint split (c : ascii) (s : string) : list string :=
  match s with
  | EmptyString => [EmptyString]
  | String x s' =>
      if decide (x = c) then EmptyString :: split c s'
      else match split c s' with
           | [] => [String x EmptyString]
           | p :: ps => String x p :: ps
           end
  end.

(** Number of occurrences of a unit in a string. *)
Fixpoint occurrences (c : ascii) (s : string) : nat :=
  match s with
  | EmptyString => 0
  | String x s' => (if decide (x = c) then 1 else 0) + occurrences c s'
  end.

Definition addressToString (address : Address) : result string :=
  if includes DELIM (pluginName address) then
    Throw (MustNotIncludeDelimiter "pluginName" (pluginName address))
  else if includes DELIM (repositoryName address) then
    Throw (MustNotIncludeDelimiter "repositoryName" (repositoryName address))
  else if includes DELIM (id address) then
    Throw (MustNotIncludeDelimiter "id" (id address))
  else
    Ok (pluginName address +:+ String DELIM
          (repositoryName address +:+ String DELIM (id address))).

Definition stringToAddress (s : string) : result Address :=
  match split DELIM s with
  | [p0; p1; p2] =>
      Ok {| pluginName := p0; repositoryName := p1; id := p2 |}
  | _ => Throw (ShouldHaveExactlyTwoDelimiters s)
  end.

Definition throws {A} (r : result A) : Prop := ∃ e, r = Throw e.

(** A field is valid when it is free of the delimiter. *)
Definition valid (a : Address) : Prop :=
  includes DELIM (pluginName a) = false ∧
  includes DELIM (repositoryName a) = false ∧
  includes DELIM (id a) = false.

End Address.

(* ================================================================== *)
(** ** The cred explorer's state machine *)
(* ================================================================== *)

Module Machine.

(** The values the machine passes through without looking inside.  Each
    type that can sit in the state carries the verdict of
    [lodash.isequal] on it as a decidable equality (for an edge evaluator,
    a function, that is identity of the function object).  [Thrown] is
    whatever a collaborator may throw. *)
Class Opaque : Type := {
  Repo : Type;
  EdgeEvaluator : Type;
  Assets : Type;
  NodeAddressT : Type;
  Graph : Type;
  DynamicAdapterSet : Type;
  PagerankNodeDecomposition : Type;
  Thrown : Type;
  Repo_eq_dec :: EqDecision Repo;
  EdgeEvaluator_eq_dec :: EqDecision EdgeEvaluator;
  Graph_eq_dec :: EqDecision Graph;
  DynamicAdapterSet_eq_dec :: EqDecision DynamicAdapterSet;
  PagerankNodeDecomposition_eq_dec :: EqDecision PagerankNodeDecomposition;
}.

(** [type LoadingState = "NOT_LOADING" | "LOADING" | "FAILED"]. *)
Inductive LoadingState : Type := NOT_LOADING | LOADING | FAILED.

#[global] Instance LoadingState_eq_dec : EqDecision LoadingState.
Proof. solve_decision. Defined.

Section WithOpaque.
Context `{O : Opaque}.

Record GraphWithAdapters : Type := mkGraphWithAdapters {
  graph : Graph;
  adapters : DynamicAdapterSet;
}.

#[global] Instance GraphWithAdapters_eq_dec : EqDecision GraphWithAdapters.
Proof. solve_decision. Defined.

(** [AppSubstate]: the constructor is the [type] tag, its arguments are
    the remaining fields in the order the Flow type lists them. *)
Inductive AppSubstate : Type :=
| READY_TO_LOAD_GRAPH (loading : LoadingState)
| READY_TO_RUN_PAGERANK
    (graphWithAdapters : GraphWithAdapters) (loading : LoadingState)
| PAGERANK_EVALUATED
    (graphWithAdapters : GraphWithAdapters)
    (pagerankNodeDecomposition : PagerankNodeDecomposition)
    (loading : LoadingState).

#[global] Instance AppSubstate_eq_dec : EqDecision AppSubstate.
Proof. solve_decision. Defined.

(** [AppState = Uninitialized | Initialized]; [?T] is [option T]. *)
Inductive AppState : Type :=
| UNINITIALIZED (edgeEvaluator : option EdgeEvaluator) (repo : option Repo)
| INITIALIZED
    (edgeEvaluator : EdgeEvaluator) (repo : Repo) (substate : AppSubstate).

#[global] Instance AppState_eq_dec : EqDecision AppState.
Proof. solve_decision. Defined.

(** [deepEqual(a, b)] on two states. *)
Definition deepEqual (a b : AppState) : bool := bool_decide (a = b).

(** [{...substate, loading: l}]. *)
Definition withLoading (substate : AppSubstate) (l : LoadingState)
  : AppSubstate :=
  match substate with
  | READY_TO_LOAD_GRAPH _ => READY_TO_LOAD_GRAPH l
  | READY_TO_RUN_PAGERANK gwa _ => READY_TO_RUN_PAGERANK gwa l
  | PAGERANK_EVALUATED gwa pnd _ => PAGERANK_EVALUATED gwa pnd l
  end.

(** [substate.graphWithAdapters], where the substate has the field. *)
Definition graphWithAdaptersOf (substate : AppSubstate)
  : option GraphWithAdapters :=
  match substate with
  | READY_TO_LOAD_GRAPH _ => None
  | READY_TO_RUN_PAGERANK gwa _ => Some gwa
  | PAGERANK_EVALUATED gwa _ _ => Some gwa
  end.

Definition initialState : AppState := UNINITIALIZED None None.

Definition isInitialized (s : AppState) : bool :=
  match s with INITIALIZED _ _ _ => true | UNINITIALIZED _ _ => false end.

(** What a state still holds on to: the loaded graphs and the PageRank
    results one can reach by following its fields. *)
Definition reachableGraphs (s : AppState) : list GraphWithAdapters :=
  match s with
  | INITIALIZED _ _ (READY_TO_RUN_PAGERANK gwa _) => [gwa]
  | INITIALIZED _ _ (PAGERANK_EVALUATED gwa _ _) => [gwa]
  | _ => []
  end.

Definition reachableDecompositions (s : AppState)
  : list PagerankNodeDecomposition :=
  match s with
  | INITIALIZED _ _ (PAGERANK_EVALUATED _ pnd _) => [pnd]
  | _ => []
  end.

(** *** Methods as programs *)

(** How an awaited collaborator promise settles.  A collaborator that
    throws before it returns a promise lands in the same [catch]; it is
    the case [Rejected] with nothing else running in between. *)
Inductive outcome (A : Type) : Type :=
| Resolved (a : A)
| Rejected (e : Thrown).
#[global] Arguments Resolved {A} a.
#[global] Arguments Rejected {A} e.

Record PagerankOptions : Type := mkPagerankOptions {
  verbose : bool;
  totalScoreNodePrefix : NodeAddressT;
}.

(** A method body: reads and writes of the injected state cell, calls to
    [console.error], a thrown [Error], and the three places where an
    [async] method gives up control: awaiting the loader, awaiting
    PageRank, and awaiting the promise of another method of the machine
    (which resumes the caller one tick after that promise settles). *)
Inductive proc (R : Type) : Type :=
| Return (r : R)
| ThrowError (message : string)
| GetState (k : AppState → proc R)
| SetState (s : AppState) (k : proc R)
| ConsoleError (e : Thrown) (k : proc R)
| AwaitLoadGraphWithAdapters
    (assets : Assets) (repo : Repo) (k : outcome GraphWithAdapters → proc R)
| AwaitPagerank
    (g : Graph) (ee : EdgeEvaluator) (options : PagerankOptions)
    (k : outcome PagerankNodeDecomposition → proc R)
| AwaitSettled (k : proc R).
#[global] Arguments Return {R} r.
#[global] Arguments ThrowError {R} message.
#[global] Arguments GetState {R} k.
#[global] Arguments SetState {R} s k.
#[global] Arguments ConsoleError {R} e k.
#[global] Arguments AwaitLoadGraphWithAdapters {R} assets repo k.
#[global] Arguments AwaitPagerank {R} g ee options k.
#[global] Arguments AwaitSettled {R} k.

Fixpoint bind {A B : Type} (p : proc A) (f : A → proc B) : proc B :=
  match p with
  | Return r => f r
  | ThrowError m => ThrowError m
  | GetState k => GetState (λ s, bind (k s) f)
  | SetState s k => SetState s (bind k f)
  | ConsoleError e k => ConsoleError e (bind k f)
  | AwaitLoadGraphWithAdapters a r k =>
      AwaitLoadGraphWithAdapters a r (λ o, bind (k o) f)
  | AwaitPagerank g ee opts k => AwaitPagerank g ee opts (λ o, bind (k o) f)
  | AwaitSettled k => AwaitSettled (bind k f)
  end.

#[global] Instance proc_ret : MRet proc := λ A r, Return r.
#[global] Instance proc_bind : MBind proc := λ A B f p, bind p f.

Definition getState : proc AppState := GetState Return.
Definition setState (s : AppState) : proc unit := SetState s (Return tt).
Definition consoleError (e : Thrown) : proc unit := ConsoleError e (Return tt).
Definition throwError {R : Type} (message : string) : proc R :=
  ThrowError message.
Definition awaitLoadGraphWithAdapters (assets : Assets) (repo : Repo)
  : proc (outcome GraphWithAdapters) :=
  AwaitLoadGraphWithAdapters assets repo Return.
Definition awaitPagerank
  (g : Graph) (ee : EdgeEvaluator) (options : PagerankOptions)
  : proc (outcome PagerankNodeDecomposition) :=
  AwaitPagerank g ee options Return.
(** [await this.m(...)]: [m] runs up to its own first suspension at once;
    the caller resumes after [m]'s promise has settled. *)
Definition await {R : Type} (p : proc R) : proc R :=
  r ← p; AwaitSettled (Return r).

Definition _maybeInitialize
  (edgeEvaluator : option EdgeEvaluator) (repo : option Repo) : AppState :=
  match repo, edgeEvaluator with
  | Some repo, Some edgeEvaluator =>
      INITIALIZED edgeEvaluator repo (READY_TO_LOAD_GRAPH NOT_LOADING)
  | _, _ => UNINITIALIZED edgeEvaluator repo
  end.

Definition setRepo (repo : Repo) : proc unit :=
  state ← getState;
  match state with
  | UNINITIALIZED edgeEvaluator _ =>
      setState (_maybeInitialize edgeEvaluator (Some repo))
  | INITIALIZED edgeEvaluator _ _ =>
      setState (INITIALIZED edgeEvaluator repo
                  (READY_TO_LOAD_GRAPH NOT_LOADING))
  end.

Definition setEdgeEvaluator (edgeEvaluator : EdgeEvaluator) : proc unit :=
  state ← getState;
  match state with
  | UNINITIALIZED _ repo =>
      setState (_maybeInitialize (Some edgeEvaluator) repo)
  | INITIALIZED _ repo substate =>
      setState (INITIALIZED edgeEvaluator repo substate)
  end.

Definition loadGraph (assets : Assets) : proc bool :=
  state ← getState;
  match state with
  | INITIALIZED edgeEvaluator repo (READY_TO_LOAD_GRAPH _ as substate) =>
      let loadingState :=
        INITIALIZED edgeEvaluator repo (withLoading substate LOADING) in
      setState loadingState;;
      settled ← awaitLoadGraphWithAdapters assets repo;
      '(newState, success) ←
        match settled with
        | Resolved graphWithAdapters =>
            mret (INITIALIZED edgeEvaluator repo
                    (READY_TO_RUN_PAGERANK graphWithAdapters NOT_LOADING),
                  true)
        | Rejected e =>
            consoleError e;;
            mret (INITIALIZED edgeEvaluator repo (withLoading substate FAILED),
                  false)
        end;
      current ← getState;
      if deepEqual current loadingState then
        setState newState;; mret success
      else mret false
  | _ => throwError "Tried to loadGraph in incorrect state"
  end.

(** The part of [runPagerank] after its state check, where [substate]
    is known to carry [graphWithAdapters]. *)
Definition runPagerankOn
  (edgeEvaluator : EdgeEvaluator) (repo : Repo) (substate : AppSubstate)
  (graphWithAdapters : GraphWithAdapters)
  (totalScoreNodePrefix : NodeAddressT) : proc unit :=
  let loadingSubstate := withLoading substate LOADING in
  let loadingState := INITIALIZED edgeEvaluator repo loadingSubstate in
  setState loadingState;;
  settled ← awaitPagerank (graph graphWithAdapters) edgeEvaluator
              {| verbose := true;
                 totalScoreNodePrefix := totalScoreNodePrefix |};
  newState ←
    match settled with
    | Resolved pagerankNodeDecomposition =>
        mret (INITIALIZED edgeEvaluator repo
                (PAGERANK_EVALUATED graphWithAdapters
                   pagerankNodeDecomposition NOT_LOADING))
    | Rejected e =>
        consoleError e;;
        mret (INITIALIZED edgeEvaluator repo (withLoading substate FAILED))
    end;
  current ← getState;
  if deepEqual current loadingState then setState newState else mret tt.

Definition runPagerank (totalScoreNodePrefix : NodeAddressT) : proc unit :=
  state ← getState;
  match state with
  | INITIALIZED edgeEvaluator repo
      (READY_TO_RUN_PAGERANK graphWithAdapters _ as substate)
  | INITIALIZED edgeEvaluator repo
      (PAGERANK_EVALUATED graphWithAdapters _ _ as substate) =>
      runPagerankOn edgeEvaluator repo substate graphWithAdapters
        totalScoreNodePrefix
  | _ => throwError "Tried to runPagerank in incorrect state"
  end.

Definition loadGraphAndRunPagerank
  (assets : Assets) (totalScoreNodePrefix : NodeAddressT) : proc unit :=
  state ← getState;
  match state with
  | UNINITIALIZED _ _ =>
      throwError "Tried to load and run from incorrect state"
  | INITIALIZED _ _ (READY_TO_LOAD_GRAPH _) =>
      loadedGraph ← await (loadGraph assets);
      if loadedGraph : bool then await (runPagerank totalScoreNodePrefix)
      else mret tt
  | INITIALIZED _ _ (READY_TO_RUN_PAGERANK _ _) =>
      await (runPagerank totalScoreNodePrefix)
  | INITIALIZED _ _ (PAGERANK_EVALUATED _ _ _) =>
      await (runPagerank totalScoreNodePrefix)
  end.

(** *** Running a program *)

(** The injected cell ([getState]/[setState]) and what has been written
    to [console.error] so far. *)
Record cell : Type := mkCell {
  live : AppState;
  console : list Thrown;
}.

(** Where a suspended method waits, with the rest of its body. *)
Inductive suspension (R : Type) : Type :=
| OnLoadGraphWithAdapters
    (assets : Assets) (repo : Repo) (k : outcome GraphWithAdapters → proc R)
| OnPagerank
    (g : Graph) (ee : EdgeEvaluator) (options : PagerankOptions)
    (k : outcome PagerankNodeDecomposition → proc R)
| OnSettled (k : proc R).
#[global] Arguments OnLoadGraphWithAdapters {R} assets repo k.
#[global] Arguments OnPagerank {R} g ee options k.
#[global] Arguments OnSettled {R} k.

(** How a call stands: it returned, it threw an [Error] to its caller,
    or it is suspended. *)
Inductive status (R : Type) : Type :=
| Done (r : R)
| Crashed (message : string)
| Suspended (w : suspension R).
#[global] Arguments Done {R} r.
#[global] Arguments Crashed {R} message.
#[global] Arguments Suspended {R} w.

(** Run a program without interruption up to its next suspension. *)
Fixpoint run {R : Type} (p : proc R) (c : cell) : status R * cell :=
  match p with
  | Return r => (Done r, c)
  | ThrowError m => (Crashed m, c)
  | GetState k => run (k (live c)) c
  | SetState s k => run k {| live := s; console := console c |}
  | ConsoleError e k =>
      run k {| live := live c; console := console c ++ [e] |}
  | AwaitLoadGraphWithAdapters a r k =>
      (Suspended (OnLoadGraphWithAdapters a r k), c)
  | AwaitPagerank g ee opts k => (Suspended (OnPagerank g ee opts k), c)
  | AwaitSettled k => (Suspended (OnSettled k), c)
  end.

(** The state a synchronous method leaves behind. *)
Definition after (p : proc unit) (s : AppState) : AppState :=
  live (run p {| live := s; console := [] |}).2.

(** The two collaborators handed to the constructor, as the way their
    promises settle. *)
Record world : Type := mkWorld {
  loadGraphWithAdapters : Assets → Repo → outcome GraphWithAdapters;
  pagerank :
    Graph → EdgeEvaluator → PagerankOptions →
    outcome PagerankNodeDecomposition;
}.

Inductive call : Type :=
| CallLoadGraphWithAdapters (assets : Assets) (repo : Repo)
| CallPagerank (g : Graph) (ee : EdgeEvaluator) (options : PagerankOptions).

Record execution (R : Type) : Type := mkExecution {
  result : status R;
  final : cell;
  calls : list call;
}.
#[global] Arguments mkExecution {R} result final calls.
#[global] Arguments result {R} e.
#[global] Arguments final {R} e.
#[global] Arguments calls {R} e.

Definition interfere (f : AppState → AppState) (c : cell) : cell :=
  {| live := f (live c); console := console c |}.

Definition called {R : Type} (k : call) (e : execution R) : execution R :=
  mkExecution (result e) (final e) (k :: calls e).

(** A whole call.  Each time the method is suspended, the rest of the
    application gets to run before it resumes: the head of [env] is what
    that does to the state in the cell (the identity when nothing else
    touches it).  A collaborator's promise settles the way [W] says.  When
    [env] is used up nothing else ever runs: a call waiting for a
    collaborator stays suspended, a call waiting for an already settled
    promise of the machine resumes undisturbed. *)
Fixpoint exec {R : Type} (W : world) (env : list (AppState → AppState))
  (p : proc R) (c : cell) : execution R :=
  match p with
  | Return r => mkExecution (Done r) c []
  | ThrowError m => mkExecution (Crashed m) c []
  | GetState k => exec W env (k (live c)) c
  | SetState s k => exec W env k {| live := s; console := console c |}
  | ConsoleError e k =>
      exec W env k {| live := live c; console := console c ++ [e] |}
  | AwaitLoadGraphWithAdapters a r k =>
      match env with
      | [] =>
          mkExecution (Suspended (OnLoadGraphWithAdapters a r k)) c
            [CallLoadGraphWithAdapters a r]
      | f :: env' =>
          called (CallLoadGraphWithAdapters a r)
            (exec W env' (k (loadGraphWithAdapters W a r)) (interfere f c))
      end
  | AwaitPagerank g ee opts k =>
      match env with
      | [] =>
          mkExecution (Suspended (OnPagerank g ee opts k)) c
            [CallPagerank g ee opts]
      | f :: env' =>
          called (CallPagerank g ee opts)
            (exec W env' (k (pagerank W g ee opts)) (interfere f c))
      end
  | AwaitSettled k =>
      match env with
      | [] => exec W [] k c
      | f :: env' => exec W env' k (interfere f c)
      end
  end.

(** Nothing else touches the state. *)
Definition quiet (f : AppState → AppState) : Prop := ∀ s, f s = s.

Definition substateOf (s : AppState) : option AppSubstate :=
  match s with
  | INITIALIZED _ _ substate => Some substate
  | UNINITIALIZED _ _ => None
  end.

(** The states the cell goes through under a sequence of synchronous
    calls, the starting state first. *)
Fixpoint statesThrough (ops : list (proc unit)) (s : AppState)
  : list AppState :=
  match ops with
  | [] => [s]
  | op :: ops' => s :: statesThrough ops' (after op s)
  end.

(** How many steps of a sequence of states go from [UNINITIALIZED] to
    [INITIALIZED]. *)
Fixpoint initializations (trace : list AppState) : nat :=
  match trace with
  | s :: (s' :: _) as rest =>
      (if negb (isInitialized s) && isInitialized s' then 1 else 0)
      + initializations rest
  | _ => 0
  end.

(** The spec's reading of a "did not complete" signal: what a call
    returns when its result was discarded differs from what it returns
    when its result was committed. *)
Definition reportsNonSuccess {R : Type} (discarded committed : execution R)
  : Prop :=
  result discarded ≠ result committed.

(** *** Several calls in flight *)

(** The rest of a suspended call once what it waits for has settled. *)
Definition resume {R : Type} (W : world) (w : suspension R) : proc R :=
  match w with
  | OnLoadGraphWithAdapters a r k => k (loadGraphWithAdapters W a r)
  | OnPagerank g ee opts k => k (pagerank W g ee opts)
  | OnSettled k => k
  end.

(** The state in the cell once a call has run up to its first
    suspension (or to its end). *)
Definition started {R : Type} (p : proc R) (s : AppState) : AppState :=
  live (run p {| live := s; console := [] |}).2.

(** Two calls in flight at once: [p1] runs up to its suspension, then
    [p2] up to its own.  Then what they wait for settles, for the call
    started first when [firstSettlesFirst] and for the other one
    otherwise, and that call runs on; then the same for the remaining
    call.  The two returns are given in the order the calls were
    started.  [None] when one of them does not suspend. *)
Definition race {A B : Type} (W : world) (firstSettlesFirst : bool)
  (p1 : proc A) (p2 : proc B) (c : cell)
  : option (status A * status B * cell) :=
  match run p1 c with
  | (Suspended w1, c1) =>
      match run p2 c1 with
      | (Suspended w2, c2) =>
          if firstSettlesFirst then
            let '(r1, c3) := run (resume W w1) c2 in
            let '(r2, c4) := run (resume W w2) c3 in
            Some (r1, r2, c4)
          else
            let '(r2, c3) := run (resume W w2) c2 in
            let '(r1, c4) := run (resume W w1) c3 in
            Some (r1, r2, c4)
      | _ => None
      end
  | _ => None
  end.

(** A program that never throws an [Error] with the given message,
    whatever states it reads and however its awaits settle. *)
Fixpoint neverThrows {R : Type} (message : string) (p : proc R) : Prop :=
  match p with
  | Return _ => True
  | ThrowError m => m ≠ message
  | GetState k => ∀ s, neverThrows message (k s)
  | SetState _ k => neverThrows message k
  | ConsoleError _ k => neverThrows message k
  | AwaitLoadGraphWithAdapters _ _ k => ∀ o, neverThrows message (k o)
  | AwaitPagerank _ _ _ k => ∀ o, neverThrows message (k o)
  | AwaitSettled k => neverThrows message k
  end.

(** A program that writes only [INITIALIZED] states as long as the
    states it reads are [INITIALIZED]. *)
Fixpoint writesInitialized {R : Type} (p : proc R) : Prop :=
  match p with
  | Return _ => True
  | ThrowError _ => True
  | GetState k => ∀ s, isInitialized s = true → writesInitialized (k s)
  | SetState s k => isInitialized s = true ∧ writesInitialized k
  | ConsoleError _ k => writesInitialized k
  | AwaitLoadGraphWithAdapters _ _ k => ∀ o, writesInitialized (k o)
  | AwaitPagerank _ _ _ k => ∀ o, writesInitialized (k o)
  | AwaitSettled k => writesInitialized k
  end.

(** Whatever else runs never takes the state back to [UNINITIALIZED]. *)
Definition keepsInitialized (f : AppState → AppState) : Prop :=
  ∀ s, isInitialized s = true → isInitialized (f s) = true.

End WithOpaque.

(** *** A concrete instance for examples

    Repositories, evaluators and thrown values are named; graphs and
    PageRank results are numbered. *)
Module Demo.

#[export] Instance demo : Opaque := {|
  Repo := string;
  EdgeEvaluator := string;
  Assets := unit;
  NodeAddressT := string;
  Graph := nat;
  DynamicAdapterSet := unit;
  PagerankNodeDecomposition := nat;
  Thrown := string;
|}.

(** Both collaborators succeed. *)
Definition succeeding : world := {|
  loadGraphWithAdapters := λ _ _, Resolved {| graph := 7; adapters := tt |};
  pagerank := λ g _ _, Resolved (g + 1);
|}.

(** Both collaborators throw. *)
Definition failing : world := {|
  loadGraphWithAdapters := λ _ _, Rejected "load failed";
  pagerank := λ _ _ _, Rejected "pagerank failed";
|}.

Definition readyToLoad : cell :=
  mkCell (INITIALIZED "evaluator" "sourcecred/sourcecred"
            (READY_TO_LOAD_GRAPH NOT_LOADING)) [].

Definition readyToRun : cell :=
  mkCell (INITIALIZED "evaluator" "sourcecred/sourcecred"
            (READY_TO_RUN_PAGERANK {| graph := 7; adapters := tt |}
               NOT_LOADING)) [].

End Demo.

End Machine.

(* ================================================================== *)
(** ** The [sourcecred pagerank] command *)
(* ================================================================== *)

Module Cli.

(** How an awaited promise, or a call that may throw, ends. *)
Inductive settled (Thrown A : Type) : Type :=
| Resolved (a : A)
| Rejected (e : Thrown).
Arguments Resolved {Thrown A} a.
Arguments Rejected {Thrown A} e.

(** [LoadGraphResult], by its [status]; of the [error] of a plugin
    failure the command reads only the [message]. *)
Inductive LoadGraphResult (Graph : Type) : Type :=
| REPO_NOT_LOADED
| PLUGIN_FAILURE (pluginName : string) (errorMessage : string)
| SUCCESS (graph : Graph).
Arguments REPO_NOT_LOADED {Graph}.
Arguments PLUGIN_FAILURE {Graph} pluginName errorMessage.
Arguments SUCCESS {Graph} graph.

(** What a run of the command does that can be seen from outside: lines
    on [std.out] and [std.err], and the calls to its three
    collaborators. *)
Inductive event (RepoId Graph PagerankGraph : Type) : Type :=
| StdOut (line : string)
| StdErr (line : string)
| CallLoader (repoId : RepoId)
| CallPagerankRunner (graph : Graph)
| CallSaver (repoId : RepoId) (pagerankGraph : PagerankGraph).
Arguments StdOut {RepoId Graph PagerankGraph} line.
Arguments StdErr {RepoId Graph PagerankGraph} line.
Arguments CallLoader {RepoId Graph PagerankGraph} repoId.
Arguments CallPagerankRunner {RepoId Graph PagerankGraph} graph.
Arguments CallSaver {RepoId Graph PagerankGraph} repoId pagerankGraph.

(** How the command's promise ends: resolved with an exit code, or
    rejected with what was thrown. *)
Inductive ending (Thrown : Type) : Type :=
| Exit (code : nat)
| Threw (e : Thrown).
Arguments Exit {Thrown} code.
Arguments Threw {Thrown} e.

Section WithCollaborators.
Context {RepoId Graph PagerankGraph Thrown : Type}.

(** Pieces of the repository the command uses and that are not at
    hand: the text [usage] prints, and the two conversions of
    [core/repoId] ([stringToRepoId] may throw). *)
Variable usageText : string.
Variable stringToRepoId : string → settled Thrown RepoId.
Variable repoIdToString : RepoId → string.

(** The arguments of [makePagerankCommand]. *)
Variable loader : RepoId → settled Thrown (LoadGraphResult Graph).
Variable pagerankRunner : Graph → settled Thrown PagerankGraph.
Variable saver : RepoId → PagerankGraph → settled Thrown unit.

#[local] Abbreviation ev := (event RepoId Graph PagerankGraph).

(** A piece of the command's body: what it has done so far, and either
    the way the command has ended ([return] or a throw) or the value to
    go on with. *)
Definition cmd (A : Type) : Type := list ev * (ending Thrown + A).

Definition cmd_bind {A B : Type} (f : A → cmd B) (m : cmd A) : cmd B :=
  match m with
  | (tr, inl e) => (tr, inl e)
  | (tr, inr a) => let '(tr', r) := f a in (tr ++ tr', r)
  end.

#[local] Instance cmd_mret : MRet cmd := λ A a, ([], inr a).
#[local] Instance cmd_mbind : MBind cmd := λ A B f m, cmd_bind f m.

Definition emit (e : ev) : cmd unit := ([e], inr tt).
Definition returns {A : Type} (code : nat) : cmd A := ([], inl (Exit code)).
Definition awaited {A : Type} (r : settled Thrown A) : cmd A :=
  match r with
  | Resolved a => ([], inr a)
  | Rejected e => ([], inl (Threw e))
  end.

Definition stdOut (line : string) : cmd unit := emit (StdOut line).
Definition stdErr (line : string) : cmd unit := emit (StdErr line).

(** The double quote, as a one-unit string. *)
Definition dquote : string := String "034"%char EmptyString.

(** [usage(print)]: one call of [print]. *)
Definition usage (print : string → cmd unit) : cmd unit := print usageText.

(** [die(std, message)], up to its [return 1]. *)
Definition die (message : string) : cmd nat :=
  stdErr ("fatal: " +:+ message);;
  stdErr "fatal: run 'sourcecred help pagerank' for help";;
  mret 1.

(** The [for] loop over [args], with [repoId] as found so far. *)
Fixpoint argsLoop (args : list string) (repoId : option RepoId)
  : cmd (option RepoId) :=
  match args with
  | [] => mret repoId
  | arg :: rest =>
      if decide (arg = "--help") then
        usage stdOut;; returns 0
      else
        match repoId with
        | Some _ =>
            code ← die "multiple repository IDs provided"; returns code
        | None =>
            parsed ← awaited (stringToRepoId arg);
            argsLoop rest (Some parsed)
        end
  end.

(** The body of the command [makePagerankCommand] returns. *)
Definition pagerankBody (args : list string) : cmd nat :=
  found ← argsLoop args None;
  match found with
  | None => die "no repository ID provided"
  | Some repoId =>
      emit (CallLoader repoId);;
      result ← awaited (loader repoId);
      match result with
      | REPO_NOT_LOADED =>
          let repoIdStr := repoIdToString repoId in
          stdErr ("fatal: repository ID " +:+ repoIdStr +:+ " not loaded");;
          stdErr ("Try running `sourcecred load " +:+ repoIdStr
                  +:+ "` first.");;
          mret 1
      | PLUGIN_FAILURE pluginName errorMessage =>
          stdErr ("fatal: plugin " +:+ dquote +:+ pluginName +:+ dquote
                  +:+ " errored: " +:+ errorMessage);;
          mret 1
      | SUCCESS graph =>
          emit (CallPagerankRunner graph);;
          pagerankGraph ← awaited (pagerankRunner graph);
          emit (CallSaver repoId pagerankGraph);;
          awaited (saver repoId pagerankGraph);;
          mret 0
      end
  end.

(** A whole run: what was done, and how the promise ended. *)
Definition finish (m : cmd nat) : list ev * ending Thrown :=
  match m with
  | (tr, inl e) => (tr, e)
  | (tr, inr code) => (tr, Exit code)
  end.

Definition pagerank (args : list string) : list ev * ending Thrown :=
  finish (pagerankBody args).

(** The [help] command. *)
Definition help (args : list string) : list ev * ending Thrown :=
  finish
    (if decide (length args = 0) then usage stdOut;; mret 0
     else usage stdErr;; mret 1).

Definition isStdOut (e : ev) : bool :=
  match e with StdOut _ => true | _ => false end.

Definition isStdErr (e : ev) : bool :=
  match e with StdErr _ => true | _ => false end.

(** An event that is a call to a collaborator. *)
Definition isCall (e : ev) : bool :=
  match e with
  | CallLoader _ | CallPagerankRunner _ | CallSaver _ _ => true
  | _ => false
  end.

(** The shapes an argument list can have, as the loop sees them. *)
Inductive argsShape : list string → Type :=
| NoArgs : argsShape []
| HelpFirst rest : argsShape ("--help" :: rest)
| BadId a e rest :
    a ≠ "--help" → stringToRepoId a = Rejected e → argsShape (a :: rest)
| OneId a r :
    a ≠ "--help" → stringToRepoId a = Resolved r → argsShape [a]
| HelpSecond a r rest :
    a ≠ "--help" → stringToRepoId a = Resolved r →
    argsShape (a :: "--help" :: rest)
| TwoIds a r b rest :
    a ≠ "--help" → stringToRepoId a = Resolved r → b ≠ "--help" →
    argsShape (a :: b :: rest).

End WithCollaborators.

Arguments NoArgs {RepoId Thrown stringToRepoId}.
Arguments HelpFirst {RepoId Thrown stringToRepoId} rest.
Arguments BadId {RepoId Thrown stringToRepoId} a e rest _ _.
Arguments OneId {RepoId Thrown stringToRepoId} a r _ _.
Arguments HelpSecond {RepoId Thrown stringToRepoId} a r rest _ _.
Arguments TwoIds {RepoId Thrown stringToRepoId} a r b rest _ _ _.

(** *** A concrete instance for examples

    Repository ids are strings that must hold a slash; graphs and
    PageRank graphs are numbered. *)
Module Demo.

Definition hasSlash (s : string) : bool := Address.includes "/"%char s.

Definition stringToRepoId (s : string) : settled string string :=
  if hasSlash s then Resolved s else Rejected ("Invalid repo string: " +:+ s).

Definition repoIdToString (r : string) : string := r.

(** Only [sourcecred/sourcecred] has been loaded. *)
Definition loader (r : string) : settled string (LoadGraphResult nat) :=
  if decide (r = "sourcecred/sourcecred") then Resolved (SUCCESS 7)
  else Resolved REPO_NOT_LOADED.

Definition pagerankRunner (g : nat) : settled string nat := Resolved (g + 1).

Definition saver (r : string) (pg : nat) : settled string unit := Resolved tt.

Definition pagerank : list string → list (event string nat nat) * ending string :=
  Cli.pagerank "usage: sourcecred pagerank REPO_ID [--help]"
    stringToRepoId repoIdToString loader pagerankRunner saver.

End Demo.

End Cli.

(* ================================================================== *)
(** ** The codec: round trip and failures *)
(* ================================================================== *)

Section AddressFacts.
Import Address.

Lemma split_nonempty c s : split c s ≠ [].
Proof.
  destruct s as [|x s]; simpl; [done|].
  case_decide; [done|]. by destruct (split c s).
Qed.

Lemma split_free c s : includes c s = false → split c s = [s].
Proof.
  induction s as [|x s IH]; simpl; [done|].
  case_decide; [done|]. intros Hs. by rewrite IH.
Qed.

Lemma split_app_delim c p rest :
  includes c p = false →
  split c (p +:+ String c rest) = p :: split c rest.
Proof.
  induction p as [|x p IH]; simpl.
  - intros _. by rewrite decide_True.
  - case_decide; [done|]. intros Hp. by rewrite IH.
Qed.

Lemma split_length c s : length (split c s) = S (occurrences c s).
Proof.
  induction s as [|x s IH]; simpl; [done|].
  case_decide; simpl; [by rewrite IH|].
  pose proof (split_nonempty c s).
  destruct (split c s) as [|p ps]; simpl in *; [done|lia].
Qed.

Lemma encode_valid a :
  valid a →
  addressToString a =
    Ok (pluginName a +:+ String DELIM
          (repositoryName a +:+ String DELIM (id a))).
Proof.
  intros (Hp & Hr & Hi). unfold addressToString. by rewrite Hp, Hr, Hi.
Qed.

Lemma encode_throws a :
  throws (addressToString a) ↔
  includes DELIM (pluginName a) = true ∨
  includes DELIM (repositoryName a) = true ∨
  includes DELIM (id a) = true.
Proof.
  unfold throws, addressToString.
  destruct (includes DELIM (pluginName a));
    [split; [auto | intros _; by eexists]|].
  destruct (includes DELIM (repositoryName a));
    [split; [auto | intros _; by eexists]|].
  destruct (includes DELIM (id a));
    [split; [auto | intros _; by eexists]|].
  split; [intros [e He]; discriminate | intros [H|[H|H]]; discriminate].
Qed.

Lemma decode_throws s :
  throws (stringToAddress s) ↔ length (split DELIM s) ≠ 3.
Proof.
  unfold throws, stringToAddress.
  destruct (split DELIM s) as [|p0 [|p1 [|p2 [|p3 ps]]]]; simpl;
    (split; [intros [e He]; first [done | lia] | intros Hn]);
    first [done | by eexists].
Qed.

(** C4.  For every address whose three fields are free of the delimiter,
    [addressToString] returns a string, and [stringToAddress] of that
    string returns the address again. *)
Theorem stringToAddress_addressToString (a : Address) :
  valid a →
  ∃ s, addressToString a = Ok s ∧ stringToAddress s = Ok a.
Proof.
  intros Hv. eexists. split; [by apply encode_valid|].
  destruct Hv as (Hp & Hr & Hi). unfold stringToAddress.
  rewrite split_app_delim by done.
  rewrite split_app_delim by done.
  rewrite split_free by done.
  by destruct a.
Qed.

Lemma stringToAddress_addressToString_witness :
  valid (mkAddress "sourcecred/sourcecred" "github" "issue/1") ∧
  ∃ s, addressToString (mkAddress "sourcecred/sourcecred" "github" "issue/1")
         = Ok s ∧
       stringToAddress s
         = Ok (mkAddress "sourcecred/sourcecred" "github" "issue/1").
Proof.
  split.
  - repeat split; reflexivity.
  - apply (stringToAddress_addressToString
             (mkAddress "sourcecred/sourcecred" "github" "issue/1")).
    repeat split; reflexivity.
Defined.

(** C5.  [addressToString] throws exactly when some field of the address
    contains the delimiter; [stringToAddress] throws exactly when the
    string does not hold exactly two delimiters, which is exactly when
    splitting it does not give three parts.  So neither returns a value
    on such input. *)
Theorem codec_throws_exactly_on_bad_input :
  (∀ a : Address,
     throws (addressToString a) ↔
     includes DELIM (pluginName a) = true ∨
     includes DELIM (repositoryName a) = true ∨
     includes DELIM (id a) = true) ∧
  (∀ s : string,
     throws (stringToAddress s) ↔ occurrences DELIM s ≠ 2) ∧
  (∀ s : string,
     occurrences DELIM s ≠ 2 ↔ length (split DELIM s) ≠ 3).
Proof.
  split; [exact encode_throws|]. split; intros s.
  - rewrite decode_throws, split_length. lia.
  - rewrite split_length. lia.
Qed.

End AddressFacts.

(* ================================================================== *)
(** ** The state machine: transitions and the staleness guard *)
(* ================================================================== *)

Section MachineFacts.
Import Machine.
Context `{O : Opaque}.

#[local] Arguments deepEqual : simpl never.

Lemma deepEqual_same (a b : AppState) : a = b → deepEqual a b = true.
Proof. intros ->. unfold deepEqual. by apply bool_decide_eq_true. Qed.

Lemma deepEqual_differ (a b : AppState) : a ≠ b → deepEqual a b = false.
Proof. intros Hne. unfold deepEqual. by apply bool_decide_eq_false. Qed.

(** The synchronous methods as functions on the state. *)

Lemma after_setRepo (repo : Repo) (s : AppState) :
  after (setRepo repo) s =
    match s with
    | UNINITIALIZED edgeEvaluator _ =>
        _maybeInitialize edgeEvaluator (Some repo)
    | INITIALIZED edgeEvaluator _ _ =>
        INITIALIZED edgeEvaluator repo (READY_TO_LOAD_GRAPH NOT_LOADING)
    end.
Proof. by destruct s. Qed.

Lemma after_setEdgeEvaluator (edgeEvaluator : EdgeEvaluator) (s : AppState) :
  after (setEdgeEvaluator edgeEvaluator) s =
    match s with
    | UNINITIALIZED _ repo => _maybeInitialize (Some edgeEvaluator) repo
    | INITIALIZED _ repo substate => INITIALIZED edgeEvaluator repo substate
    end.
Proof. by destruct s. Qed.

(** The setters always return, without throwing or suspending. *)
Lemma run_setRepo (repo : Repo) (c : cell) :
  run (setRepo repo) c
  = (Done tt, mkCell (after (setRepo repo) (live c)) (console c)).
Proof. destruct c as [[ee r|ee r sub] log]; reflexivity. Qed.

Lemma run_setEdgeEvaluator (edgeEvaluator : EdgeEvaluator) (c : cell) :
  run (setEdgeEvaluator edgeEvaluator) c
  = (Done tt,
     mkCell (after (setEdgeEvaluator edgeEvaluator) (live c)) (console c)).
Proof. destruct c as [[ee r|ee r sub] log]; reflexivity. Qed.

(** A synchronous run and a whole call agree on a method that never
    suspends. *)
Lemma exec_run {R : Type} W env (p : proc R) c r c' :
  run p c = (Done r, c') → exec W env p c = mkExecution (Done r) c' [].
Proof.
  revert c. induction p as [| | k IH | s k IH | e k IH | | |];
    intros c; simpl; try done.
  - by intros [= -> ->].
  - apply IH.
  - apply IH.
  - apply IH.
Qed.

(** What a call of [loadGraph] does from a state that passes its check,
    when the rest of the application turns the marked state into
    [f loadingState] before the loader settles. *)
Lemma exec_loadGraph W f env edgeEvaluator repo l assets log :
  exec W (f :: env) (loadGraph assets)
    (mkCell (INITIALIZED edgeEvaluator repo (READY_TO_LOAD_GRAPH l)) log) =
  let loadingState :=
    INITIALIZED edgeEvaluator repo (READY_TO_LOAD_GRAPH LOADING) in
  let fresh := deepEqual (f loadingState) loadingState in
  match loadGraphWithAdapters W assets repo with
  | Resolved graphWithAdapters =>
      mkExecution (Done fresh)
        (mkCell
           (if fresh then
              INITIALIZED edgeEvaluator repo
                (READY_TO_RUN_PAGERANK graphWithAdapters NOT_LOADING)
            else f loadingState)
           log)
        [CallLoadGraphWithAdapters assets repo]
  | Rejected e =>
      mkExecution (Done false)
        (mkCell
           (if fresh then
              INITIALIZED edgeEvaluator repo (READY_TO_LOAD_GRAPH FAILED)
            else f loadingState)
           (log ++ [e]))
        [CallLoadGraphWithAdapters assets repo]
  end.
Proof.
  simpl. destruct (loadGraphWithAdapters W assets repo) as [gwa|e]; simpl;
    by destruct (deepEqual _ _).
Qed.

(** [runPagerank] from a substate that carries a graph. *)
Lemma exec_runPagerank W f env edgeEvaluator repo substate gwa prefix log :
  graphWithAdaptersOf substate = Some gwa →
  exec W (f :: env) (runPagerank prefix)
    (mkCell (INITIALIZED edgeEvaluator repo substate) log) =
  let loadingState :=
    INITIALIZED edgeEvaluator repo (withLoading substate LOADING) in
  let fresh := deepEqual (f loadingState) loadingState in
  let options :=
    {| verbose := true; totalScoreNodePrefix := prefix |} in
  match pagerank W (graph gwa) edgeEvaluator options with
  | Resolved pagerankNodeDecomposition =>
      mkExecution (Done tt)
        (mkCell
           (if fresh then
              INITIALIZED edgeEvaluator repo
                (PAGERANK_EVALUATED gwa pagerankNodeDecomposition NOT_LOADING)
            else f loadingState)
           log)
        [CallPagerank (graph gwa) edgeEvaluator options]
  | Rejected e =>
      mkExecution (Done tt)
        (mkCell
           (if fresh then
              INITIALIZED edgeEvaluator repo (withLoading substate FAILED)
            else f loadingState)
           (log ++ [e]))
        [CallPagerank (graph gwa) edgeEvaluator options]
  end.
Proof.
  intros Hgwa.
  destruct substate as [l0|gwa0 l0|gwa0 pnd0 l0]; simplify_eq/=;
    destruct (pagerank W _ _ _) as [pnd|e]; simpl;
    by destruct (deepEqual _ _).
Qed.

Lemma after_setRepo_not_loading repo' s edgeEvaluator repo :
  after (setRepo repo') s ≠
    INITIALIZED edgeEvaluator repo (READY_TO_LOAD_GRAPH LOADING).
Proof.
  rewrite after_setRepo.
  destruct s as [[ee|] r|ee r sub]; simpl; discriminate.
Qed.

(** Before the loader settles, a call of [loadGraph] has left the
    [LOADING] marker in the cell and is suspended on the loader. *)
Lemma loadGraph_marks_loading W edgeEvaluator repo l assets log :
  ∃ k,
    exec W [] (loadGraph assets)
      (mkCell (INITIALIZED edgeEvaluator repo (READY_TO_LOAD_GRAPH l)) log) =
    mkExecution (Suspended (OnLoadGraphWithAdapters assets repo k))
      (mkCell (INITIALIZED edgeEvaluator repo (READY_TO_LOAD_GRAPH LOADING))
         log)
      [CallLoadGraphWithAdapters assets repo].
Proof. by eexists. Qed.

(** C1, as the code has it.  Let [loadGraph] start from a state that
    passes its check, so that it writes the [LOADING] marker and waits
    for the loader.  If, before the loader settles, [setRepo] is called
    (after anything else the application did to the state) and nothing
    changes the state after it, then however the loader settles the
    call returns [false] and the cell holds exactly what [setRepo]
    wrote: the candidate is not committed. *)
Theorem loadGraph_loses_to_setRepo
  (W : world) (edgeEvaluator : EdgeEvaluator) (repo : Repo)
  (l : LoadingState) (assets : Assets) (log : list Thrown)
  (before : AppState → AppState) (repo' : Repo) :
  result
    (exec W [λ s, after (setRepo repo') (before s)] (loadGraph assets)
       (mkCell (INITIALIZED edgeEvaluator repo (READY_TO_LOAD_GRAPH l)) log))
  = Done false ∧
  live (final
    (exec W [λ s, after (setRepo repo') (before s)] (loadGraph assets)
       (mkCell (INITIALIZED edgeEvaluator repo (READY_TO_LOAD_GRAPH l)) log)))
  = after (setRepo repo')
      (before (INITIALIZED edgeEvaluator repo (READY_TO_LOAD_GRAPH LOADING))).
Proof.
  rewrite exec_loadGraph. cbv zeta.
  rewrite deepEqual_differ by apply after_setRepo_not_loading.
  by destruct (loadGraphWithAdapters W assets repo).
Qed.

(** C2, as the code has it.  When the guard of an asynchronous method
    finds the cell different from the state the method left there before
    suspending, the method writes nothing more: the cell keeps what the
    guard found.  [loadGraph] then returns [false] to its caller;
    [runPagerank] returns without a value, as it does on every path. *)
Theorem stale_call_commits_nothing
  (W : world) (f : AppState → AppState) :
  (∀ edgeEvaluator repo l assets log,
     f (INITIALIZED edgeEvaluator repo (READY_TO_LOAD_GRAPH LOADING)) ≠
       INITIALIZED edgeEvaluator repo (READY_TO_LOAD_GRAPH LOADING) →
     result
       (exec W [f] (loadGraph assets)
          (mkCell (INITIALIZED edgeEvaluator repo (READY_TO_LOAD_GRAPH l))
             log))
     = Done false ∧
     live (final
       (exec W [f] (loadGraph assets)
          (mkCell (INITIALIZED edgeEvaluator repo (READY_TO_LOAD_GRAPH l))
             log)))
     = f (INITIALIZED edgeEvaluator repo (READY_TO_LOAD_GRAPH LOADING))) ∧
  (∀ edgeEvaluator repo substate gwa prefix log,
     graphWithAdaptersOf substate = Some gwa →
     f (INITIALIZED edgeEvaluator repo (withLoading substate LOADING)) ≠
       INITIALIZED edgeEvaluator repo (withLoading substate LOADING) →
     result
       (exec W [f] (runPagerank prefix)
          (mkCell (INITIALIZED edgeEvaluator repo substate) log))
     = Done tt ∧
     live (final
       (exec W [f] (runPagerank prefix)
          (mkCell (INITIALIZED edgeEvaluator repo substate) log)))
     = f (INITIALIZED edgeEvaluator repo (withLoading substate LOADING))).
Proof.
  split.
  - intros ee repo l assets log Hstale.
    rewrite exec_loadGraph. cbv zeta. rewrite deepEqual_differ by done.
    by destruct (loadGraphWithAdapters W assets repo).
  - intros ee repo substate gwa prefix log Hgwa Hstale.
    rewrite (exec_runPagerank _ _ _ _ _ _ gwa) by done. cbv zeta.
    rewrite deepEqual_differ by done.
    by destruct (pagerank W _ _ _).
Qed.

(** C3.  When the cell still holds the [LOADING]-marked state as the
    loader settles, [loadGraph] commits its candidate: if the loader
    resolved, the substate is [READY_TO_RUN_PAGERANK] with the loaded
    graph and [NOT_LOADING], and the call returns [true]; if the loader
    threw, the substate is [READY_TO_LOAD_GRAPH] with [FAILED], the
    thrown value is on the console, and the call returns [false].  In
    both cases the call returns: nothing is thrown to the caller. *)
Theorem loadGraph_commits_when_fresh
  (W : world) (f : AppState → AppState)
  (edgeEvaluator : EdgeEvaluator) (repo : Repo) (l : LoadingState)
  (assets : Assets) (log : list Thrown) :
  f (INITIALIZED edgeEvaluator repo (READY_TO_LOAD_GRAPH LOADING)) =
    INITIALIZED edgeEvaluator repo (READY_TO_LOAD_GRAPH LOADING) →
  exec W [f] (loadGraph assets)
    (mkCell (INITIALIZED edgeEvaluator repo (READY_TO_LOAD_GRAPH l)) log) =
  match loadGraphWithAdapters W assets repo with
  | Resolved graphWithAdapters =>
      mkExecution (Done true)
        (mkCell
           (INITIALIZED edgeEvaluator repo
              (READY_TO_RUN_PAGERANK graphWithAdapters NOT_LOADING))
           log)
        [CallLoadGraphWithAdapters assets repo]
  | Rejected e =>
      mkExecution (Done false)
        (mkCell (INITIALIZED edgeEvaluator repo (READY_TO_LOAD_GRAPH FAILED))
           (log ++ [e]))
        [CallLoadGraphWithAdapters assets repo]
  end.
Proof.
  intros Hfresh. rewrite exec_loadGraph. cbv zeta.
  by rewrite deepEqual_same.
Qed.

Lemma setRepo_only_stays_uninitialized repos r0 :
  Forall (λ s, isInitialized s = false)
    (statesThrough (setRepo <$> repos) (UNINITIALIZED None r0)).
Proof.
  revert r0. induction repos as [|r repos IH]; intros r0; simpl.
  - by constructor.
  - constructor; [done|]. rewrite after_setRepo. apply IH.
Qed.

Lemma setEdgeEvaluator_only_stays_uninitialized evaluators ee0 :
  Forall (λ s, isInitialized s = false)
    (statesThrough (setEdgeEvaluator <$> evaluators)
       (UNINITIALIZED ee0 None)).
Proof.
  revert ee0. induction evaluators as [|e es IH]; intros ee0; simpl.
  - by constructor.
  - constructor; [done|]. rewrite after_setEdgeEvaluator.
    destruct ee0; apply IH.
Qed.

(** C6.  From an [UNINITIALIZED] state (the initial state among them),
    [setRepo] then [setEdgeEvaluator], or the two in the other order, go
    through exactly one step from [UNINITIALIZED] to [INITIALIZED] and
    end in [INITIALIZED] with the two values given and substate
    [READY_TO_LOAD_GRAPH], [NOT_LOADING].  While the other field is
    still absent, any number of calls of one setter alone only goes
    through [UNINITIALIZED] states. *)
Theorem initialization_happens_once :
  (∀ ee0 r0 (repo : Repo) (edgeEvaluator : EdgeEvaluator),
     initializations
       (statesThrough [setRepo repo; setEdgeEvaluator edgeEvaluator]
          (UNINITIALIZED ee0 r0)) = 1 ∧
     last
       (statesThrough [setRepo repo; setEdgeEvaluator edgeEvaluator]
          (UNINITIALIZED ee0 r0))
     = Some (INITIALIZED edgeEvaluator repo
               (READY_TO_LOAD_GRAPH NOT_LOADING))) ∧
  (∀ ee0 r0 (repo : Repo) (edgeEvaluator : EdgeEvaluator),
     initializations
       (statesThrough [setEdgeEvaluator edgeEvaluator; setRepo repo]
          (UNINITIALIZED ee0 r0)) = 1 ∧
     last
       (statesThrough [setEdgeEvaluator edgeEvaluator; setRepo repo]
          (UNINITIALIZED ee0 r0))
     = Some (INITIALIZED edgeEvaluator repo
               (READY_TO_LOAD_GRAPH NOT_LOADING))) ∧
  (∀ (repos : list Repo) r0,
     Forall (λ s, isInitialized s = false)
       (statesThrough (setRepo <$> repos) (UNINITIALIZED None r0))) ∧
  (∀ (evaluators : list EdgeEvaluator) ee0,
     Forall (λ s, isInitialized s = false)
       (statesThrough (setEdgeEvaluator <$> evaluators)
          (UNINITIALIZED ee0 None))).
Proof.
  split; [|split; [|split]].
  - intros [ee0|] [r0|] repo ee; by compute.
  - intros [ee0|] [r0|] repo ee; by compute.
  - exact setRepo_only_stays_uninitialized.
  - exact setEdgeEvaluator_only_stays_uninitialized.
Qed.

(** C7.  On every [INITIALIZED] state, whatever its substate and loading
    status, [setRepo] puts the new repo in place, keeps the edge
    evaluator and sets the substate to [READY_TO_LOAD_GRAPH] with
    [NOT_LOADING]; no loaded graph and no PageRank result can be reached
    from the new state. *)
Theorem setRepo_resets_substate
  (edgeEvaluator : EdgeEvaluator) (repo : Repo) (substate : AppSubstate)
  (repo' : Repo) :
  after (setRepo repo') (INITIALIZED edgeEvaluator repo substate)
  = INITIALIZED edgeEvaluator repo' (READY_TO_LOAD_GRAPH NOT_LOADING) ∧
  reachableGraphs
    (after (setRepo repo') (INITIALIZED edgeEvaluator repo substate)) = [] ∧
  reachableDecompositions
    (after (setRepo repo') (INITIALIZED edgeEvaluator repo substate)) = [].
Proof. by rewrite after_setRepo. Qed.

(** C8.  On every [INITIALIZED] state, [setEdgeEvaluator] replaces the
    edge evaluator and leaves the repo and the whole substate (variant,
    graph, result, loading status) as they were. *)
Theorem setEdgeEvaluator_keeps_repo_and_substate
  (edgeEvaluator : EdgeEvaluator) (repo : Repo) (substate : AppSubstate)
  (edgeEvaluator' : EdgeEvaluator) :
  after (setEdgeEvaluator edgeEvaluator')
    (INITIALIZED edgeEvaluator repo substate)
  = INITIALIZED edgeEvaluator' repo substate.
Proof. by rewrite after_setEdgeEvaluator. Qed.

(** A discarded [loadGraph] is told apart from a committed successful
    one by what it returns. *)
Lemma loadGraph_reportsNonSuccess
  W f1 f2 edgeEvaluator repo l assets log gwa :
  loadGraphWithAdapters W assets repo = Resolved gwa →
  f1 (INITIALIZED edgeEvaluator repo (READY_TO_LOAD_GRAPH LOADING)) ≠
    INITIALIZED edgeEvaluator repo (READY_TO_LOAD_GRAPH LOADING) →
  f2 (INITIALIZED edgeEvaluator repo (READY_TO_LOAD_GRAPH LOADING)) =
    INITIALIZED edgeEvaluator repo (READY_TO_LOAD_GRAPH LOADING) →
  reportsNonSuccess
    (exec W [f1] (loadGraph assets)
       (mkCell (INITIALIZED edgeEvaluator repo (READY_TO_LOAD_GRAPH l)) log))
    (exec W [f2] (loadGraph assets)
       (mkCell (INITIALIZED edgeEvaluator repo (READY_TO_LOAD_GRAPH l)) log)).
Proof.
  intros Hload Hstale Hfresh. unfold reportsNonSuccess.
  rewrite !exec_loadGraph. cbv zeta. rewrite Hload.
  rewrite deepEqual_differ by done. rewrite deepEqual_same by done.
  discriminate.
Qed.

(** C9, as the code has it.  Let [loadGraphAndRunPagerank] start from an
    [INITIALIZED] state with substate [READY_TO_LOAD_GRAPH], with a
    loader that throws.  Whatever else happens to the state meanwhile,
    the only collaborator call is the one to the loader: PageRank is
    never invoked.  And when nothing else changes the state while the
    call is in flight, the call returns with the cell holding substate
    [READY_TO_LOAD_GRAPH] with [FAILED]. *)
Theorem loadGraphAndRunPagerank_failing_loader
  (W : world) (edgeEvaluator : EdgeEvaluator) (repo : Repo)
  (l : LoadingState) (assets : Assets) (prefix : NodeAddressT)
  (log : list Thrown) (err : Thrown) :
  loadGraphWithAdapters W assets repo = Rejected err →
  (∀ env,
     calls
       (exec W env (loadGraphAndRunPagerank assets prefix)
          (mkCell (INITIALIZED edgeEvaluator repo (READY_TO_LOAD_GRAPH l))
             log))
     = [CallLoadGraphWithAdapters assets repo]) ∧
  (∀ env,
     env ≠ [] → Forall quiet env →
     exec W env (loadGraphAndRunPagerank assets prefix)
       (mkCell (INITIALIZED edgeEvaluator repo (READY_TO_LOAD_GRAPH l)) log)
     = mkExecution (Done tt)
         (mkCell (INITIALIZED edgeEvaluator repo (READY_TO_LOAD_GRAPH FAILED))
            (log ++ [err]))
         [CallLoadGraphWithAdapters assets repo]).
Proof.
  intros Hrej. split.
  - intros [|f [|g env]]; simpl; [done| |]; rewrite Hrej; simpl;
      by destruct (deepEqual _ _).
  - intros [|f env] Hne Hquiet; [done|].
    apply Forall_cons in Hquiet as [Hf Hq].
    simpl. rewrite Hrej. simpl. unfold interfere. simpl.
    rewrite Hf, deepEqual_same by done. simpl.
    destruct env as [|g env]; simpl; [done|].
    apply Forall_cons in Hq as [Hg _]. unfold interfere. simpl.
    by rewrite Hg.
Qed.


(** With the evaluator it already has, the state does not change and the
    load is committed. *)
Lemma loadGraph_survives_same_evaluator
  W edgeEvaluator repo l assets log gwa :
  loadGraphWithAdapters W assets repo = Resolved gwa →
  exec W [after (setEdgeEvaluator edgeEvaluator)] (loadGraph assets)
    (mkCell (INITIALIZED edgeEvaluator repo (READY_TO_LOAD_GRAPH l)) log)
  = mkExecution (Done true)
      (mkCell
         (INITIALIZED edgeEvaluator repo (READY_TO_RUN_PAGERANK gwa NOT_LOADING))
         log)
      [CallLoadGraphWithAdapters assets repo].
Proof.
  intros Hload. rewrite exec_loadGraph. cbv zeta.
  rewrite after_setEdgeEvaluator, Hload. by rewrite deepEqual_same.
Qed.

End MachineFacts.

(* ================================================================== *)
(** ** Concrete runs *)
(* ================================================================== *)

Section ConcreteRuns.
Import Machine Machine.Demo.

#[local] Abbreviation INITIALIZED := (@Machine.INITIALIZED demo).
#[local] Abbreviation setRepo := (@Machine.setRepo demo).
#[local] Abbreviation setEdgeEvaluator := (@Machine.setEdgeEvaluator demo).
#[local] Abbreviation loadGraph := (@Machine.loadGraph demo).
#[local] Abbreviation runPagerank := (@Machine.runPagerank demo).
#[local] Abbreviation loadGraphAndRunPagerank :=
  (@Machine.loadGraphAndRunPagerank demo).
#[local] Abbreviation CallLoadGraphWithAdapters :=
  (@Machine.CallLoadGraphWithAdapters demo).
#[local] Abbreviation mkGraphWithAdapters := (@Machine.mkGraphWithAdapters demo).

Lemma stale_call_commits_nothing_witness :
  (after (setRepo "other")
     (INITIALIZED "evaluator" "sourcecred/sourcecred"
        (READY_TO_LOAD_GRAPH LOADING))
   ≠ INITIALIZED "evaluator" "sourcecred/sourcecred"
       (READY_TO_LOAD_GRAPH LOADING)) ∧
  (result
     (exec succeeding [after (setRepo "other")] (loadGraph tt) readyToLoad)
   = Done false ∧
   live (final
     (exec succeeding [after (setRepo "other")] (loadGraph tt) readyToLoad))
   = INITIALIZED "evaluator" "other" (READY_TO_LOAD_GRAPH NOT_LOADING)) ∧
  (after (setRepo "other")
     (INITIALIZED "evaluator" "sourcecred/sourcecred"
        (READY_TO_RUN_PAGERANK (mkGraphWithAdapters 7 tt) LOADING))
   ≠ INITIALIZED "evaluator" "sourcecred/sourcecred"
       (READY_TO_RUN_PAGERANK (mkGraphWithAdapters 7 tt) LOADING)) ∧
  (result
     (exec succeeding [after (setRepo "other")] (runPagerank "prefix")
        readyToRun)
   = Done tt ∧
   live (final
     (exec succeeding [after (setRepo "other")] (runPagerank "prefix")
        readyToRun))
   = INITIALIZED "evaluator" "other" (READY_TO_LOAD_GRAPH NOT_LOADING)).
Proof.
  destruct (stale_call_commits_nothing succeeding (after (setRepo "other")))
    as [Hload Hrank].
  split; [discriminate|]. split; [apply Hload; discriminate|].
  split; [discriminate|].
  apply (Hrank "evaluator" "sourcecred/sourcecred"
           (READY_TO_RUN_PAGERANK (mkGraphWithAdapters 7 tt) NOT_LOADING)
           (mkGraphWithAdapters 7 tt) "prefix" []);
    [reflexivity | discriminate].
Defined.

(** C2 fails for [runPagerank].  From a loaded graph, one call is
    overtaken by [setRepo] and discarded, another runs undisturbed and
    commits its result; both return the same thing to their caller, so
    the caller of the first gets no "did not complete" signal. *)
Lemma runPagerank_return_tells_nothing :
  live (final
    (exec succeeding [after (setRepo "other")] (runPagerank "prefix")
       readyToRun))
  = INITIALIZED "evaluator" "other" (READY_TO_LOAD_GRAPH NOT_LOADING) ∧
  live (final (exec succeeding [id] (runPagerank "prefix") readyToRun))
  = INITIALIZED "evaluator" "sourcecred/sourcecred"
      (PAGERANK_EVALUATED (mkGraphWithAdapters 7 tt) 8 NOT_LOADING) ∧
  ¬ reportsNonSuccess
      (exec succeeding [after (setRepo "other")] (runPagerank "prefix")
         readyToRun)
      (exec succeeding [id] (runPagerank "prefix") readyToRun).
Proof.
  split; [reflexivity|]. split; [reflexivity|].
  intros Hreport. by apply Hreport.
Qed.

Lemma loadGraph_commits_when_fresh_witness :
  id (INITIALIZED "evaluator" "sourcecred/sourcecred"
        (READY_TO_LOAD_GRAPH LOADING))
  = INITIALIZED "evaluator" "sourcecred/sourcecred"
      (READY_TO_LOAD_GRAPH LOADING) ∧
  exec succeeding [id] (loadGraph tt) readyToLoad
  = mkExecution (Done true)
      (mkCell
         (INITIALIZED "evaluator" "sourcecred/sourcecred"
            (READY_TO_RUN_PAGERANK (mkGraphWithAdapters 7 tt) NOT_LOADING))
         [])
      [CallLoadGraphWithAdapters tt "sourcecred/sourcecred"].
Proof.
  split; [reflexivity|].
  apply (loadGraph_commits_when_fresh succeeding id
           "evaluator" "sourcecred/sourcecred" NOT_LOADING tt []).
  reflexivity.
Defined.

Lemma loadGraphAndRunPagerank_failing_loader_witness :
  loadGraphWithAdapters failing tt "sourcecred/sourcecred"
  = Rejected "load failed" ∧
  calls
    (exec failing [after (setRepo "other"); id]
       (loadGraphAndRunPagerank tt "prefix") readyToLoad)
  = [CallLoadGraphWithAdapters tt "sourcecred/sourcecred"] ∧
  exec failing [id; id] (loadGraphAndRunPagerank tt "prefix") readyToLoad
  = mkExecution (Done tt)
      (mkCell
         (INITIALIZED "evaluator" "sourcecred/sourcecred"
            (READY_TO_LOAD_GRAPH FAILED))
         ["load failed"])
      [CallLoadGraphWithAdapters tt "sourcecred/sourcecred"].
Proof.
  split; [reflexivity|].
  destruct (loadGraphAndRunPagerank_failing_loader failing
              "evaluator" "sourcecred/sourcecred" NOT_LOADING tt "prefix"
              [] "load failed" eq_refl) as [Hcalls Hfinal].
  split; [apply Hcalls|].
  apply Hfinal; [discriminate|].
  repeat constructor.
Defined.

(** C9 fails when the state changes during the load.  The loader throws,
    [setRepo] is called while it was being awaited: the failed candidate
    is dropped and the substate ends [READY_TO_LOAD_GRAPH] with
    [NOT_LOADING], not [FAILED]. *)
Lemma loadGraphAndRunPagerank_overtaken_not_failed :
  loadGraphWithAdapters failing tt "sourcecred/sourcecred"
  = Rejected "load failed" ∧
  result
    (exec failing [after (setRepo "other")]
       (loadGraphAndRunPagerank tt "prefix") readyToLoad)
  = Done tt ∧
  substateOf (live (final
    (exec failing [after (setRepo "other")]
       (loadGraphAndRunPagerank tt "prefix") readyToLoad)))
  = Some (READY_TO_LOAD_GRAPH NOT_LOADING) ∧
  substateOf (live (final
    (exec failing [after (setRepo "other")]
       (loadGraphAndRunPagerank tt "prefix") readyToLoad)))
  ≠ Some (READY_TO_LOAD_GRAPH FAILED).
Proof. repeat split; discriminate. Qed.


(** C1 fails when something else follows [setRepo].  During the load
    [setRepo] is called with the repo the state already has and a second
    [loadGraph] is started: the cell again equals the [LOADING] state
    the first call left, so when its loader settles the first call
    commits its graph and returns [true], and the cell does not hold
    what [setRepo] wrote. *)
Lemma loadGraph_commits_despite_setRepo :
  exec succeeding
    [λ s, started (loadGraph tt) (after (setRepo "sourcecred/sourcecred") s)]
    (loadGraph tt) readyToLoad
  = mkExecution (Done true)
      (mkCell
         (INITIALIZED "evaluator" "sourcecred/sourcecred"
            (READY_TO_RUN_PAGERANK (mkGraphWithAdapters 7 tt) NOT_LOADING))
         [])
      [CallLoadGraphWithAdapters tt "sourcecred/sourcecred"] ∧
  result
    (exec succeeding
       [λ s, started (loadGraph tt)
               (after (setRepo "sourcecred/sourcecred") s)]
       (loadGraph tt) readyToLoad)
  ≠ Done false ∧
  live (final
    (exec succeeding
       [λ s, started (loadGraph tt)
               (after (setRepo "sourcecred/sourcecred") s)]
       (loadGraph tt) readyToLoad))
  ≠ after (setRepo "sourcecred/sourcecred")
      (INITIALIZED "evaluator" "sourcecred/sourcecred"
         (READY_TO_LOAD_GRAPH LOADING)).
Proof. repeat split; discriminate. Qed.


(** The scenario of the specification, end to end: both setters, a
    load, a PageRank run, then a change of repo. *)
Example scenario_load_score_reset :
  after (setRepo "sourcecred/sourcecred")
    (after (setEdgeEvaluator "evaluator") initialState)
  = live readyToLoad ∧
  exec succeeding [id; id; id] (loadGraphAndRunPagerank tt "prefix")
    readyToLoad
  = mkExecution (Done tt)
      (mkCell
         (INITIALIZED "evaluator" "sourcecred/sourcecred"
            (PAGERANK_EVALUATED (mkGraphWithAdapters 7 tt) 8 NOT_LOADING))
         [])
      [CallLoadGraphWithAdapters tt "sourcecred/sourcecred";
       CallPagerank 7 "evaluator"
         {| verbose := true; totalScoreNodePrefix := "prefix" |}] ∧
  after (setRepo "other")
    (INITIALIZED "evaluator" "sourcecred/sourcecred"
       (PAGERANK_EVALUATED (mkGraphWithAdapters 7 tt) 8 NOT_LOADING))
  = INITIALIZED "evaluator" "other" (READY_TO_LOAD_GRAPH NOT_LOADING).
Proof. repeat split. Qed.

End ConcreteRuns.

(* ================================================================== *)
(** ** More on the codec: the other round trip, and keys *)
(* ================================================================== *)

Section AddressKeys.
Import Address.

(** The first piece of a split is delimiter-free; either it is the whole
    string, or the string is that piece, a delimiter, and a rest whose
    split gives the other pieces. *)
Lemma split_cons c s p ps :
  split c s = p :: ps →
  includes c p = false ∧
  match ps with
  | [] => s = p
  | _ :: _ => ∃ rest, s = p +:+ String c rest ∧ split c rest = ps
  end.
Proof.
  revert p ps. induction s as [|x s IH]; intros p ps; simpl.
  - by intros [= <- <-].
  - case_decide as Hx.
    + intros [= <- <-]. split; [done|].
      pose proof (split_nonempty c s) as Hne.
      destruct (split c s) as [|q qs] eqn:Hs; [done|].
      exists s. by rewrite Hx, Hs.
    + pose proof (split_nonempty c s) as Hne.
      destruct (split c s) as [|p' ps'] eqn:Hs; [done|].
      intros [= <- <-]. destruct (IH p' ps' eq_refl) as [Hfree Hrest].
      split; [simpl; by rewrite decide_False|].
      destruct ps' as [|q qs].
      * by rewrite Hrest.
      * destruct Hrest as (rest & -> & Hsplit). by exists rest.
Qed.

Lemma encode_ok a s :
  addressToString a = Ok s →
  valid a ∧
  s = pluginName a +:+ String DELIM
        (repositoryName a +:+ String DELIM (id a)).
Proof.
  unfold addressToString, valid.
  destruct (includes DELIM (pluginName a)); [done|].
  destruct (includes DELIM (repositoryName a)); [done|].
  destruct (includes DELIM (id a)); [done|].
  by intros [= <-].
Qed.

Lemma decode_encoded a s :
  addressToString a = Ok s → stringToAddress s = Ok a.
Proof.
  intros [(Hp & Hr & Hi) ->]%encode_ok. unfold stringToAddress.
  rewrite !split_app_delim, split_free by done. by destruct a.
Qed.

(** X1.  Whatever [stringToAddress] returns is a valid address (no field
    holds the delimiter), and [addressToString] maps it back to the very
    string that was decoded. *)
Theorem addressToString_stringToAddress (s : string) (a : Address) :
  stringToAddress s = Ok a →
  valid a ∧ addressToString a = Ok s.
Proof.
  unfold stringToAddress.
  destruct (split DELIM s) as [|p0 [|p1 [|p2 [|p3 ps]]]] eqn:Hs; try done.
  intros [= <-].
  apply split_cons in Hs as (H0 & r1 & -> & Hs).
  apply split_cons in Hs as (H1 & r2 & -> & Hs).
  apply split_cons in Hs as (H2 & ->).
  assert (valid {| pluginName := p0; repositoryName := p1; id := p2 |})
    as Hv by done.
  split; [done|]. by rewrite (encode_valid _ Hv).
Qed.

Lemma addressToString_stringToAddress_witness :
  stringToAddress "github$sourcecred/sourcecred$issue/1"
  = Ok (mkAddress "sourcecred/sourcecred" "github" "issue/1") ∧
  valid (mkAddress "sourcecred/sourcecred" "github" "issue/1") ∧
  addressToString (mkAddress "sourcecred/sourcecred" "github" "issue/1")
  = Ok "github$sourcecred/sourcecred$issue/1".
Proof.
  split; [reflexivity|].
  apply (addressToString_stringToAddress
           "github$sourcecred/sourcecred$issue/1"
           (mkAddress "sourcecred/sourcecred" "github" "issue/1")).
  reflexivity.
Defined.

(** X2.  Two addresses that [addressToString] maps to the same string
    are the same address: the string can serve as a key. *)
Theorem addressToString_injective (a b : Address) (s : string) :
  addressToString a = Ok s → addressToString b = Ok s → a = b.
Proof.
  intros Ha%decode_encoded Hb%decode_encoded. congruence.
Qed.

Lemma addressToString_injective_witness :
  addressToString (mkAddress "sourcecred/sourcecred" "github" "issue/1")
  = Ok "github$sourcecred/sourcecred$issue/1" ∧
  mkAddress "sourcecred/sourcecred" "github" "issue/1"
  = mkAddress "sourcecred/sourcecred" "github" "issue/1".
Proof.
  split; [reflexivity|].
  apply (addressToString_injective _ _
           "github$sourcecred/sourcecred$issue/1");
    reflexivity.
Defined.

End AddressKeys.

(* ================================================================== *)
(** ** More on the state machine *)
(* ================================================================== *)

Section MachineMore.
Import Machine.
Context `{O : Opaque}.

#[local] Arguments deepEqual : simpl never.

(** X3.  [loadGraph] checks the state before anything else.  From
    [INITIALIZED] with substate [READY_TO_LOAD_GRAPH] it never throws and
    calls the loader exactly once, with the assets given and the repo of
    the state, whatever happens meanwhile.  From every other state it
    throws at once: the cell is untouched and no collaborator is
    called. *)
Theorem loadGraph_checks_state
  (W : world) (env : list (AppState → AppState)) (assets : Assets)
  (c : cell) :
  match live c with
  | INITIALIZED _ repo (READY_TO_LOAD_GRAPH _) =>
      calls (exec W env (loadGraph assets) c)
      = [CallLoadGraphWithAdapters assets repo] ∧
      ∀ message, result (exec W env (loadGraph assets) c) ≠ Crashed message
  | _ =>
      exec W env (loadGraph assets) c
      = mkExecution (Crashed "Tried to loadGraph in incorrect state") c []
  end.
Proof.
  destruct c as [[ee r|ee r [l|gwa l|gwa pnd l]] log]; simpl; try done.
  destruct env as [|f env]; simpl; [done|].
  destruct (loadGraphWithAdapters W assets r); simpl;
    by destruct (deepEqual _ _).
Qed.

(** X4.  [runPagerank] checks the state before anything else.  From
    [INITIALIZED] with a substate that holds a graph it never throws and
    calls PageRank exactly once, on that graph, with the edge evaluator
    of the state at the time of the call, [verbose] set and the prefix
    given.  From [UNINITIALIZED] and from [READY_TO_LOAD_GRAPH] it throws
    at once: the cell is untouched and no collaborator is called. *)
Theorem runPagerank_checks_state
  (W : world) (env : list (AppState → AppState)) (prefix : NodeAddressT)
  (c : cell) :
  match live c with
  | INITIALIZED edgeEvaluator _ (READY_TO_RUN_PAGERANK gwa _)
  | INITIALIZED edgeEvaluator _ (PAGERANK_EVALUATED gwa _ _) =>
      calls (exec W env (runPagerank prefix) c)
      = [CallPagerank (graph gwa) edgeEvaluator
           {| verbose := true; totalScoreNodePrefix := prefix |}] ∧
      ∀ message, result (exec W env (runPagerank prefix) c) ≠ Crashed message
  | _ =>
      exec W env (runPagerank prefix) c
      = mkExecution (Crashed "Tried to runPagerank in incorrect state") c []
  end.
Proof.
  destruct c as [[ee r|ee r [l|gwa l|gwa pnd l]] log]; simpl; try done.
  - destruct env as [|f env]; simpl; [done|].
    destruct (pagerank W _ _ _); simpl; by destruct (deepEqual _ _).
  - destruct env as [|f env]; simpl; [done|].
    destruct (pagerank W _ _ _); simpl; by destruct (deepEqual _ _).
Qed.

(** A program that never throws a given message does not end with it,
    whatever else runs meanwhile. *)
Lemma exec_neverThrows {R : Type} W message (p : proc R) :
  neverThrows message p →
  ∀ env c, result (exec W env p c) ≠ Crashed message.
Proof.
  induction p as [r|m|k IH|s k IH|e k IH|a r k IH|g ee opts k IH|k IH];
    simpl; intros Hp env c; try done.
  - congruence.
  - by apply IH.
  - by apply IH.
  - by apply IH.
  - destruct env as [|f env]; simpl; [done|]. by apply IH.
  - destruct env as [|f env]; simpl; [done|]. by apply IH.
  - destruct env as [|f env]; by apply IH.
Qed.

Lemma neverThrows_bind {A B : Type} message (p : proc A) (f : A → proc B) :
  neverThrows message p → (∀ r, neverThrows message (f r)) →
  neverThrows message (bind p f).
Proof.
  intros Hp Hf.
  induction p as [r|m|k IH|s k IH|e k IH|a r k IH|g ee opts k IH|k IH];
    simpl in *; try done.
  - intros s. by apply IH.
  - by apply IH.
  - by apply IH.
  - intros o. by apply IH.
  - intros o. by apply IH.
  - by apply IH.
Qed.

(** [loadGraph] and [runPagerank] throw only their own messages. *)
Lemma loadGraph_neverThrows assets :
  neverThrows "Tried to load and run from incorrect state"
    (loadGraph assets).
Proof.
  intros [ee r|ee r [l|gwa l|gwa pnd l]]; simpl; try done.
  intros [gwa|e] s; simpl; by destruct (deepEqual _ _).
Qed.

Lemma runPagerank_neverThrows prefix :
  neverThrows "Tried to load and run from incorrect state"
    (runPagerank prefix).
Proof.
  intros [ee r|ee r [l|gwa l|gwa pnd l]]; simpl; try done.
  - intros [pnd|e] s; simpl; by destruct (deepEqual _ _).
  - intros [pnd'|e] s; simpl; by destruct (deepEqual _ _).
Qed.

Lemma await_neverThrows {R : Type} message (p : proc R) :
  neverThrows message p → neverThrows message (await p).
Proof. intros Hp. by apply neverThrows_bind. Qed.

(** X5.  [loadGraphAndRunPagerank] throws its own error exactly from
    [UNINITIALIZED]: there it throws at once, with the cell untouched
    and no collaborator called, and from an [INITIALIZED] state it never
    ends with that error, whatever happens meanwhile.  From
    [INITIALIZED] its first step is always a collaborator call: the
    loader from [READY_TO_LOAD_GRAPH]; PageRank from the two substates
    that hold a graph, where the loader is never called and no error at
    all is thrown. *)
Theorem loadGraphAndRunPagerank_checks_state
  (W : world) (env : list (AppState → AppState)) (assets : Assets)
  (prefix : NodeAddressT) (c : cell) :
  match live c with
  | UNINITIALIZED _ _ =>
      exec W env (loadGraphAndRunPagerank assets prefix) c
      = mkExecution (Crashed "Tried to load and run from incorrect state")
          c []
  | INITIALIZED _ repo (READY_TO_LOAD_GRAPH _) =>
      (∃ rest,
         calls (exec W env (loadGraphAndRunPagerank assets prefix) c)
         = CallLoadGraphWithAdapters assets repo :: rest) ∧
      result (exec W env (loadGraphAndRunPagerank assets prefix) c)
      ≠ Crashed "Tried to load and run from incorrect state"
  | INITIALIZED edgeEvaluator _ (READY_TO_RUN_PAGERANK gwa _)
  | INITIALIZED edgeEvaluator _ (PAGERANK_EVALUATED gwa _ _) =>
      calls (exec W env (loadGraphAndRunPagerank assets prefix) c)
      = [CallPagerank (graph gwa) edgeEvaluator
           {| verbose := true; totalScoreNodePrefix := prefix |}] ∧
      ∀ message,
        result (exec W env (loadGraphAndRunPagerank assets prefix) c)
        ≠ Crashed message
  end.
Proof.
  destruct c as [[ee r|ee r [l|gwa l|gwa pnd l]] log];
    cbn [live]; [done| | |].
  - split; [destruct env as [|f env]; simpl; by eexists|].
    change
      (result
         (exec W env
            (bind (await (loadGraph assets))
               (λ loadedGraph : bool,
                  if loadedGraph then await (runPagerank prefix)
                  else Return tt))
            (mkCell (INITIALIZED ee r (READY_TO_LOAD_GRAPH l)) log))
       ≠ Crashed "Tried to load and run from incorrect state").
    apply exec_neverThrows, neverThrows_bind.
    + apply await_neverThrows, loadGraph_neverThrows.
    + intros [|]; [|done].
      apply await_neverThrows, runPagerank_neverThrows.
  - destruct env as [|f [|g env]]; simpl; [done| |];
      destruct (pagerank W _ _ _); simpl; by destruct (deepEqual _ _).
  - destruct env as [|f [|g env]]; simpl; [done| |];
      destruct (pagerank W _ _ _); simpl; by destruct (deepEqual _ _).
Qed.


(** X7.  [loadGraphAndRunPagerank] from [READY_TO_LOAD_GRAPH], with a
    loader that resolves and nothing else changing the state: the loader
    is called, then PageRank on the graph just loaded with the edge
    evaluator of the state, both once and in that order.  The call
    returns with substate [PAGERANK_EVALUATED] if PageRank resolved, and
    with [READY_TO_RUN_PAGERANK] holding the loaded graph and marked
    [FAILED] if it threw. *)
Theorem loadGraphAndRunPagerank_chains
  (W : world) (env : list (AppState → AppState))
  (edgeEvaluator : EdgeEvaluator) (repo : Repo) (l : LoadingState)
  (assets : Assets) (prefix : NodeAddressT) (log : list Thrown)
  (gwa : GraphWithAdapters) :
  loadGraphWithAdapters W assets repo = Resolved gwa →
  Forall quiet env →
  3 ≤ length env →
  exec W env (loadGraphAndRunPagerank assets prefix)
    (mkCell (INITIALIZED edgeEvaluator repo (READY_TO_LOAD_GRAPH l)) log) =
  match
    pagerank W (graph gwa) edgeEvaluator
      {| verbose := true; totalScoreNodePrefix := prefix |}
  with
  | Resolved pagerankNodeDecomposition =>
      mkExecution (Done tt)
        (mkCell
           (INITIALIZED edgeEvaluator repo
              (PAGERANK_EVALUATED gwa pagerankNodeDecomposition NOT_LOADING))
           log)
        [CallLoadGraphWithAdapters assets repo;
         CallPagerank (graph gwa) edgeEvaluator
           {| verbose := true; totalScoreNodePrefix := prefix |}]
  | Rejected e =>
      mkExecution (Done tt)
        (mkCell
           (INITIALIZED edgeEvaluator repo (READY_TO_RUN_PAGERANK gwa FAILED))
           (log ++ [e]))
        [CallLoadGraphWithAdapters assets repo;
         CallPagerank (graph gwa) edgeEvaluator
           {| verbose := true; totalScoreNodePrefix := prefix |}]
  end.
Proof.
  intros Hload Hquiet Hlen.
  destruct env as [|f1 [|f2 [|f3 env]]]; simpl in Hlen; try lia.
  apply Forall_cons in Hquiet as [H1 Hquiet].
  apply Forall_cons in Hquiet as [H2 Hquiet].
  apply Forall_cons in Hquiet as [H3 Hquiet].
  simpl. rewrite Hload. simpl. unfold interfere. simpl.
  rewrite H1, deepEqual_same by done. simpl. rewrite H2. simpl.
  destruct (pagerank W _ _ _) as [pnd|e]; simpl;
    rewrite H3, deepEqual_same by done; simpl;
    (destruct env as [|f4 env]; simpl; [done|]);
    apply Forall_cons in Hquiet as [H4 _]; unfold interfere; simpl;
    by rewrite H4.
Qed.

(** X8.  From a substate that already holds a graph,
    [loadGraphAndRunPagerank] does what [runPagerank] does: the same
    return, the same cell, the same single call to PageRank. *)
Theorem loadGraphAndRunPagerank_skips_loading
  (W : world) (f : AppState → AppState)
  (edgeEvaluator : EdgeEvaluator) (repo : Repo) (substate : AppSubstate)
  (gwa : GraphWithAdapters) (assets : Assets) (prefix : NodeAddressT)
  (log : list Thrown) :
  graphWithAdaptersOf substate = Some gwa →
  exec W [f] (loadGraphAndRunPagerank assets prefix)
    (mkCell (INITIALIZED edgeEvaluator repo substate) log)
  = exec W [f] (runPagerank prefix)
      (mkCell (INITIALIZED edgeEvaluator repo substate) log).
Proof.
  intros Hgwa.
  destruct substate as [l0|gwa0 l0|gwa0 pnd0 l0]; simplify_eq/=;
    destruct (pagerank W _ _ _); simpl; by destruct (deepEqual _ _).
Qed.

(** X9.  Two calls of [loadGraph] in flight at once, started one after
    the other from a state that passes the check.  Whichever of the two
    has its loader settle first commits its candidate (the graph it
    loaded, or [FAILED]) and returns accordingly; the other then finds
    the state changed, commits nothing and returns [false], though a
    value its loader threw still goes to the console.  This holds in
    both orders of settling. *)
Theorem loadGraph_race
  (W : world) (edgeEvaluator : EdgeEvaluator) (repo : Repo)
  (l : LoadingState) (assets1 assets2 : Assets) (log : list Thrown) :
  race W true (loadGraph assets1) (loadGraph assets2)
    (mkCell (INITIALIZED edgeEvaluator repo (READY_TO_LOAD_GRAPH l)) log) =
  match
    loadGraphWithAdapters W assets1 repo,
    loadGraphWithAdapters W assets2 repo
  with
  | Resolved gwa1, Resolved _ =>
      Some (Done true, Done false,
            mkCell
              (INITIALIZED edgeEvaluator repo
                 (READY_TO_RUN_PAGERANK gwa1 NOT_LOADING))
              log)
  | Resolved gwa1, Rejected e2 =>
      Some (Done true, Done false,
            mkCell
              (INITIALIZED edgeEvaluator repo
                 (READY_TO_RUN_PAGERANK gwa1 NOT_LOADING))
              (log ++ [e2]))
  | Rejected e1, Resolved _ =>
      Some (Done false, Done false,
            mkCell
              (INITIALIZED edgeEvaluator repo (READY_TO_LOAD_GRAPH FAILED))
              (log ++ [e1]))
  | Rejected e1, Rejected e2 =>
      Some (Done false, Done false,
            mkCell
              (INITIALIZED edgeEvaluator repo (READY_TO_LOAD_GRAPH FAILED))
              ((log ++ [e1]) ++ [e2]))
  end ∧
  race W false (loadGraph assets1) (loadGraph assets2)
    (mkCell (INITIALIZED edgeEvaluator repo (READY_TO_LOAD_GRAPH l)) log) =
  match
    loadGraphWithAdapters W assets1 repo,
    loadGraphWithAdapters W assets2 repo
  with
  | Resolved _, Resolved gwa2 =>
      Some (Done false, Done true,
            mkCell
              (INITIALIZED edgeEvaluator repo
                 (READY_TO_RUN_PAGERANK gwa2 NOT_LOADING))
              log)
  | Rejected e1, Resolved gwa2 =>
      Some (Done false, Done true,
            mkCell
              (INITIALIZED edgeEvaluator repo
                 (READY_TO_RUN_PAGERANK gwa2 NOT_LOADING))
              (log ++ [e1]))
  | Resolved _, Rejected e2 =>
      Some (Done false, Done false,
            mkCell
              (INITIALIZED edgeEvaluator repo (READY_TO_LOAD_GRAPH FAILED))
              (log ++ [e2]))
  | Rejected e1, Rejected e2 =>
      Some (Done false, Done false,
            mkCell
              (INITIALIZED edgeEvaluator repo (READY_TO_LOAD_GRAPH FAILED))
              ((log ++ [e2]) ++ [e1]))
  end.
Proof.
  split; unfold race; simpl.
  - destruct (loadGraphWithAdapters W assets1 repo) as [gwa1|e1]; simpl;
      rewrite deepEqual_same by done; simpl;
      destruct (loadGraphWithAdapters W assets2 repo) as [gwa2|e2]; simpl;
      by rewrite deepEqual_differ by discriminate.
  - destruct (loadGraphWithAdapters W assets2 repo) as [gwa2|e2]; simpl;
      rewrite deepEqual_same by done; simpl;
      destruct (loadGraphWithAdapters W assets1 repo) as [gwa1|e1]; simpl;
      by rewrite deepEqual_differ by discriminate.
Qed.

(** X10.  The guard compares states by structure only.  If, while
    [loadGraph] waits for the loader, [setRepo] is called with the repo
    the state already has and a second [loadGraph] is started, the cell
    again holds a state equal to the one the first call left: when its
    loader settles the first call commits its candidate as if nothing
    had happened. *)
Theorem loadGraph_misses_same_repo_reload
  (W : world) (edgeEvaluator : EdgeEvaluator) (repo : Repo)
  (l : LoadingState) (assets1 assets2 : Assets) (log : list Thrown) :
  exec W [λ s, started (loadGraph assets2) (after (setRepo repo) s)]
    (loadGraph assets1)
    (mkCell (INITIALIZED edgeEvaluator repo (READY_TO_LOAD_GRAPH l)) log) =
  match loadGraphWithAdapters W assets1 repo with
  | Resolved gwa =>
      mkExecution (Done true)
        (mkCell
           (INITIALIZED edgeEvaluator repo
              (READY_TO_RUN_PAGERANK gwa NOT_LOADING))
           log)
        [CallLoadGraphWithAdapters assets1 repo]
  | Rejected e =>
      mkExecution (Done false)
        (mkCell (INITIALIZED edgeEvaluator repo (READY_TO_LOAD_GRAPH FAILED))
           (log ++ [e]))
        [CallLoadGraphWithAdapters assets1 repo]
  end.
Proof.
  rewrite exec_loadGraph. cbv zeta.
  by rewrite deepEqual_same.
Qed.

(** A call whose body writes only [INITIALIZED] states ends in an
    [INITIALIZED] state when it starts in one and nothing else resets
    the state. *)
Lemma exec_keeps_initialized {R : Type} W (p : proc R) :
  writesInitialized p →
  ∀ env c,
    Forall keepsInitialized env →
    isInitialized (live c) = true →
    isInitialized (live (final (exec W env p c))) = true.
Proof.
  induction p as [r|m|k IH|s k IH|e k IH|a r k IH|g ee opts k IH|k IH];
    simpl; intros Hp env c Henv Hc; try done.
  - by apply IH; [apply Hp|..].
  - destruct Hp as [Hs Hk]. by apply IH.
  - by apply IH.
  - destruct env as [|f env]; simpl; [done|].
    apply Forall_cons in Henv as [Hf Henv].
    apply IH; [apply Hp|done|]. by apply Hf.
  - destruct env as [|f env]; simpl; [done|].
    apply Forall_cons in Henv as [Hf Henv].
    apply IH; [apply Hp|done|]. by apply Hf.
  - destruct env as [|f env]; simpl; [by apply IH|].
    apply Forall_cons in Henv as [Hf Henv].
    apply IH; [done..|]. by apply Hf.
Qed.

Lemma writesInitialized_bind {A B : Type} (p : proc A) (f : A → proc B) :
  writesInitialized p → (∀ r, writesInitialized (f r)) →
  writesInitialized (bind p f).
Proof.
  intros Hp Hf.
  induction p as [r|m|k IH|s k IH|e k IH|a r k IH|g ee opts k IH|k IH];
    simpl in *; try done.
  - intros s Hs. by apply IH, Hp.
  - destruct Hp as [Hs Hk]. split; [done|]. by apply IH.
  - by apply IH.
  - intros o. by apply IH.
  - intros o. by apply IH.
  - by apply IH.
Qed.

Lemma setRepo_writesInitialized repo : writesInitialized (setRepo repo).
Proof. intros [ee r|ee r sub] Hs; by simpl in *. Qed.

Lemma setEdgeEvaluator_writesInitialized edgeEvaluator :
  writesInitialized (setEdgeEvaluator edgeEvaluator).
Proof. intros [ee r|ee r sub] Hs; by simpl in *. Qed.

Lemma loadGraph_writesInitialized assets :
  writesInitialized (loadGraph assets).
Proof.
  intros [ee r|ee r [l|gwa l|gwa pnd l]] Hs; simpl in *; try done.
  split; [done|]. intros [gwa|e] s Hs'; simpl;
    by destruct (deepEqual _ _).
Qed.

Lemma runPagerank_writesInitialized prefix :
  writesInitialized (runPagerank prefix).
Proof.
  intros [ee r|ee r [l|gwa l|gwa pnd l]] Hs; simpl in *; try done.
  - split; [done|]. intros [pnd|e] s Hs'; simpl;
      by destruct (deepEqual _ _).
  - split; [done|]. intros [pnd'|e] s Hs'; simpl;
      by destruct (deepEqual _ _).
Qed.

Lemma await_writesInitialized {R : Type} (p : proc R) :
  writesInitialized p → writesInitialized (await p).
Proof. intros Hp. by apply writesInitialized_bind. Qed.

Lemma loadGraphAndRunPagerank_writesInitialized assets prefix :
  writesInitialized (loadGraphAndRunPagerank assets prefix).
Proof.
  intros [ee r|ee r [l|gwa l|gwa pnd l]] Hs; try done.
  - change
      (writesInitialized
         (bind (await (loadGraph assets))
            (λ loadedGraph : bool,
               if loadedGraph then await (runPagerank prefix)
               else Return tt))).
    apply writesInitialized_bind.
    + apply await_writesInitialized, loadGraph_writesInitialized.
    + intros [|]; [|done].
      apply await_writesInitialized, runPagerank_writesInitialized.
  - change (writesInitialized (await (runPagerank prefix))).
    apply await_writesInitialized, runPagerank_writesInitialized.
  - change (writesInitialized (await (runPagerank prefix))).
    apply await_writesInitialized, runPagerank_writesInitialized.
Qed.

(** The two setters are themselves things that never reset the state. *)
Lemma setters_keepInitialized repo edgeEvaluator :
  keepsInitialized (after (setRepo repo)) ∧
  keepsInitialized (after (setEdgeEvaluator edgeEvaluator)).
Proof. split; by intros [ee r|ee r sub] Hs. Qed.

(** X11.  Once [INITIALIZED], always [INITIALIZED]: none of the five
    methods, however its collaborators settle and with any number of
    other calls of the machine running while it is suspended, leaves the
    cell [UNINITIALIZED]. *)
Theorem initialized_never_reverts
  (W : world) (env : list (AppState → AppState)) (c : cell) :
  isInitialized (live c) = true →
  Forall keepsInitialized env →
  (∀ repo,
     isInitialized (live (final (exec W env (setRepo repo) c))) = true) ∧
  (∀ edgeEvaluator,
     isInitialized
       (live (final (exec W env (setEdgeEvaluator edgeEvaluator) c)))
     = true) ∧
  (∀ assets,
     isInitialized (live (final (exec W env (loadGraph assets) c))) = true) ∧
  (∀ prefix,
     isInitialized (live (final (exec W env (runPagerank prefix) c)))
     = true) ∧
  (∀ assets prefix,
     isInitialized
       (live (final (exec W env (loadGraphAndRunPagerank assets prefix) c)))
     = true).
Proof.
  intros Hc Henv. repeat split; intros.
  - by apply exec_keeps_initialized; [apply setRepo_writesInitialized|..].
  - by apply exec_keeps_initialized;
      [apply setEdgeEvaluator_writesInitialized|..].
  - by apply exec_keeps_initialized; [apply loadGraph_writesInitialized|..].
  - by apply exec_keeps_initialized; [apply runPagerank_writesInitialized|..].
  - by apply exec_keeps_initialized;
      [apply loadGraphAndRunPagerank_writesInitialized|..].
Qed.

(** X12.  From any state whatsoever, once both setters have been called,
    in either order, the state is [INITIALIZED] with the two values
    given and substate [READY_TO_LOAD_GRAPH], [NOT_LOADING]; and of two
    calls of [setRepo] in a row only the second counts. *)
Theorem setters_settle_the_state
  (s : AppState) (repo repo' : Repo) (edgeEvaluator : EdgeEvaluator) :
  after (setEdgeEvaluator edgeEvaluator) (after (setRepo repo) s)
  = INITIALIZED edgeEvaluator repo (READY_TO_LOAD_GRAPH NOT_LOADING) ∧
  after (setRepo repo) (after (setEdgeEvaluator edgeEvaluator) s)
  = INITIALIZED edgeEvaluator repo (READY_TO_LOAD_GRAPH NOT_LOADING) ∧
  after (setRepo repo) (after (setRepo repo') s) = after (setRepo repo) s.
Proof.
  destruct s as [[ee|] [r|]|ee r sub];
    by rewrite ?after_setRepo, ?after_setEdgeEvaluator.
Qed.

End MachineMore.

(* ================================================================== *)
(** ** The [sourcecred pagerank] command: arguments, failures, saving *)
(* ================================================================== *)

Section CliFacts.
Import Cli.
Context {RepoId Graph PagerankGraph Thrown : Type}.
Variable usageText : string.
Variable stringToRepoId : string → settled Thrown RepoId.
Variable repoIdToString : RepoId → string.
Variable loader : RepoId → settled Thrown (LoadGraphResult Graph).
Variable pagerankRunner : Graph → settled Thrown PagerankGraph.
Variable saver : RepoId → PagerankGraph → settled Thrown unit.

#[local] Abbreviation pagerank :=
  (pagerank usageText stringToRepoId repoIdToString loader pagerankRunner
     saver).
#[local] Abbreviation ev := (event RepoId Graph PagerankGraph).
#[local] Abbreviation argsShape := (argsShape stringToRepoId).

Lemma argsShape_of (args : list string) : argsShape args.
Proof.
  destruct args as [|a rest]; [constructor|].
  destruct (decide (a = "--help")) as [->|Ha]; [constructor|].
  destruct (stringToRepoId a) as [r|e] eqn:Hparse;
    [|by eapply BadId].
  destruct rest as [|b rest]; [by eapply OneId|].
  destruct (decide (b = "--help")) as [->|Hb];
    [by eapply HelpSecond | by eapply TwoIds].
Qed.

(** What the command does on each shape. *)
Lemma pagerank_on (args : list string) (shape : argsShape args) :
  pagerank args =
  match shape with
  | NoArgs =>
      ([StdErr "fatal: no repository ID provided";
        StdErr "fatal: run 'sourcecred help pagerank' for help"], Exit 1)
  | HelpFirst _ => ([StdOut usageText], Exit 0)
  | BadId _ e _ _ _ => ([], Threw e)
  | OneId _ r _ _ =>
      match loader r with
      | Rejected e => ([CallLoader r], Threw e)
      | Resolved REPO_NOT_LOADED =>
          ([CallLoader r;
            StdErr ("fatal: repository ID " +:+ repoIdToString r
                    +:+ " not loaded");
            StdErr ("Try running `sourcecred load " +:+ repoIdToString r
                    +:+ "` first.")], Exit 1)
      | Resolved (PLUGIN_FAILURE pluginName errorMessage) =>
          ([CallLoader r;
            StdErr ("fatal: plugin " +:+ dquote +:+ pluginName +:+ dquote
                    +:+ " errored: " +:+ errorMessage)], Exit 1)
      | Resolved (SUCCESS g) =>
          match pagerankRunner g with
          | Rejected e => ([CallLoader r; CallPagerankRunner g], Threw e)
          | Resolved pg =>
              match saver r pg with
              | Rejected e =>
                  ([CallLoader r; CallPagerankRunner g; CallSaver r pg],
                   Threw e)
              | Resolved _ =>
                  ([CallLoader r; CallPagerankRunner g; CallSaver r pg],
                   Exit 0)
              end
          end
      end
  | HelpSecond _ _ _ _ _ => ([StdOut usageText], Exit 0)
  | TwoIds _ _ _ _ _ _ _ =>
      ([StdErr "fatal: multiple repository IDs provided";
        StdErr "fatal: run 'sourcecred help pagerank' for help"], Exit 1)
  end.
Proof.
  destruct shape as [|rest|a e rest Ha Hp|a r Ha Hp|a r rest Ha Hp
                     |a r b rest Ha Hp Hb];
    unfold Cli.pagerank, pagerankBody; simpl.
  - done.
  - done.
  - rewrite decide_False, Hp by done. done.
  - rewrite decide_False, Hp by done. simpl.
    destruct (loader r) as [[|pluginName errorMessage|g]|e]; simpl;
      try done.
    destruct (pagerankRunner g) as [pg|e]; simpl; [|done].
    by destruct (saver r pg) as [[]|e].
  - rewrite decide_False, Hp by done. done.
  - rewrite decide_False, Hp by done. simpl.
    by rewrite decide_False by done.
Qed.

(** X13.  The command prints its usage on [std.out] and returns 0,
    touching nothing else, exactly when [--help] is the first argument,
    or the second after a first argument that parses as a repository
    id.  A later [--help] is never honoured. *)
Theorem pagerank_help (args : list string) :
  pagerank args = ([StdOut usageText], Exit 0) ↔
  (∃ rest, args = "--help" :: rest) ∨
  (∃ a r rest,
     args = a :: "--help" :: rest ∧ a ≠ "--help" ∧
     stringToRepoId a = Resolved r).
Proof.
  split.
  - rewrite (pagerank_on _ (argsShape_of args)).
    destruct (argsShape_of args) as [|rest|a e rest Ha Hp|a r Ha Hp
                                     |a r rest Ha Hp|a r b rest Ha Hp Hb];
      try done.
    + intros _. left. by eexists.
    + destruct (loader r) as [[|pluginName errorMessage|g]|e]; try done.
      destruct (pagerankRunner g) as [pg|e]; [|done].
      by destruct (saver r pg).
    + intros _. right. by exists a, r, rest.
  - intros [[rest ->]|(a & r & rest & -> & Ha & Hp)].
    + by rewrite (pagerank_on _ (HelpFirst rest)).
    + by rewrite (pagerank_on _ (HelpSecond a r rest Ha Hp)).
Qed.

(** X14.  When the command returns 0 it either only printed its usage,
    or it was given exactly one argument, which parsed as a repository
    id; the loader reported [SUCCESS] for that id, PageRank ran on the
    loaded graph, and the saver stored its result under that same id.
    These three calls, in this order, are all the command did. *)
Theorem pagerank_exit_0 (args : list string) (tr : list ev) :
  pagerank args = (tr, Exit 0) →
  tr = [StdOut usageText] ∨
  ∃ a r g pg,
    args = [a] ∧ stringToRepoId a = Resolved r ∧
    loader r = Resolved (SUCCESS g) ∧
    pagerankRunner g = Resolved pg ∧
    saver r pg = Resolved tt ∧
    tr = [CallLoader r; CallPagerankRunner g; CallSaver r pg].
Proof.
  rewrite (pagerank_on _ (argsShape_of args)).
  destruct (argsShape_of args) as [|rest|a e rest Ha Hp|a r Ha Hp
                                   |a r rest Ha Hp|a r b rest Ha Hp Hb];
    try done.
  - intros [= <-]. by left.
  - destruct (loader r) as [[|pluginName errorMessage|g]|e] eqn:Hl;
      try done.
    destruct (pagerankRunner g) as [pg|e] eqn:Hr; [|done].
    destruct (saver r pg) as [[]|e] eqn:Hs; [|done].
    intros [= <-]. right. by exists a, r, g, pg.
  - intros [= <-]. by left.
Qed.

(** X15.  The collaborators are called at most once each and only in the
    order loader, PageRank, saver, each on what the step before gave:
    the loader on the id parsed from the single argument, PageRank on
    the graph of a [SUCCESS], the saver on that id and the PageRank
    result.  In particular nothing is saved unless the graph was loaded
    and ranked. *)
Theorem pagerank_calls (args : list string) :
  List.filter isCall (pagerank args).1 = [] ∨
  ∃ a r,
    args = [a] ∧ stringToRepoId a = Resolved r ∧
    (List.filter isCall (pagerank args).1 = [CallLoader r] ∨
     ∃ g,
       loader r = Resolved (SUCCESS g) ∧
       (List.filter isCall (pagerank args).1
        = [CallLoader r; CallPagerankRunner g] ∨
        ∃ pg,
          pagerankRunner g = Resolved pg ∧
          List.filter isCall (pagerank args).1
          = [CallLoader r; CallPagerankRunner g; CallSaver r pg])).
Proof.
  rewrite (pagerank_on _ (argsShape_of args)).
  destruct (argsShape_of args) as [|rest|a e rest Ha Hp|a r Ha Hp
                                   |a r rest Ha Hp|a r b rest Ha Hp Hb];
    try (by left).
  right. exists a, r. split; [done|]. split; [done|].
  destruct (loader r) as [[|pluginName errorMessage|g]|e] eqn:Hl;
    try (by left).
  right. exists g. split; [done|].
  destruct (pagerankRunner g) as [pg|e] eqn:Hr; [|by left].
  right. exists pg. split; [done|].
  by destruct (saver r pg).
Qed.

(** X16.  The command only ever returns 0 or 1.  When it returns 1 it
    has written to [std.err] and not to [std.out], and it has neither
    run PageRank nor saved anything: the only collaborator it may have
    called is the loader. *)
Theorem pagerank_exit_1 (args : list string) (tr : list ev) (code : nat) :
  pagerank args = (tr, Exit code) →
  code = 0 ∨
  (code = 1 ∧
   Forall (λ e, isStdOut e = false) tr ∧
   Exists (λ e, isStdErr e = true) tr ∧
   Forall (λ e, isCall e = true → ∃ r, e = CallLoader r) tr).
Proof.
  rewrite (pagerank_on _ (argsShape_of args)).
  destruct (argsShape_of args) as [|rest|a e rest Ha Hp|a r Ha Hp
                                   |a r rest Ha Hp|a r b rest Ha Hp Hb];
    try done.
  - intros [= <- <-]. right. split; [done|].
    split; [by repeat constructor|]. split; [by left|].
    by repeat constructor.
  - intros [= <- <-]. by left.
  - destruct (loader r) as [[|pluginName errorMessage|g]|e]; try done.
    + intros [= <- <-]. right. split; [done|].
      split; [by repeat constructor|].
      split; [right; by left|].
      repeat constructor; (done || by eexists).
    + intros [= <- <-]. right. split; [done|].
      split; [by repeat constructor|].
      split; [right; by left|].
      repeat constructor; (done || by eexists).
    + destruct (pagerankRunner g) as [pg|e]; [|done].
      destruct (saver r pg); [|done]. intros [= <- <-]. by left.
  - intros [= <- <-]. by left.
  - intros [= <- <-]. right. split; [done|].
    split; [by repeat constructor|]. split; [by left|].
    by repeat constructor.
Qed.

(** X17.  An argument that does not parse as a repository id makes the
    command throw what [stringToRepoId] threw, before anything is
    printed or called, whatever follows it, a [--help] included.  And
    with two leading arguments that are not [--help], the first of
    which parses, the command complains of multiple ids and returns 1
    without parsing the second or looking any further. *)
Theorem pagerank_bad_arguments :
  (∀ a e rest,
     a ≠ "--help" → stringToRepoId a = Rejected e →
     pagerank (a :: rest) = ([], Threw e)) ∧
  (∀ a r b rest,
     a ≠ "--help" → stringToRepoId a = Resolved r → b ≠ "--help" →
     pagerank (a :: b :: rest)
     = ([StdErr "fatal: multiple repository IDs provided";
         StdErr "fatal: run 'sourcecred help pagerank' for help"],
        Exit 1)) ∧
  pagerank []
  = ([StdErr "fatal: no repository ID provided";
      StdErr "fatal: run 'sourcecred help pagerank' for help"], Exit 1).
Proof.
  split; [|split].
  - intros a e rest Ha Hp. by rewrite (pagerank_on _ (BadId a e rest Ha Hp)).
  - intros a r b rest Ha Hp Hb.
    by rewrite (pagerank_on _ (TwoIds a r b rest Ha Hp Hb)).
  - by rewrite (pagerank_on _ NoArgs).
Qed.

(** The [help] command prints the usage either way; it returns 0 and
    prints on [std.out] when given no argument, and returns 1 and prints
    on [std.err] otherwise. *)
Lemma help_exit (args : list string) :
  help (RepoId := RepoId) (Graph := Graph) (PagerankGraph := PagerankGraph)
    (Thrown := Thrown) usageText args
  = match args with
    | [] => ([StdOut usageText], Exit 0)
    | _ :: _ => ([StdErr usageText], Exit 1)
    end.
Proof. by destruct args. Qed.

End CliFacts.

(* ================================================================== *)
(** ** More concrete runs *)
(* ================================================================== *)

Section MoreConcreteRuns.
Import Machine Machine.Demo.

#[local] Abbreviation INITIALIZED := (@Machine.INITIALIZED demo).
#[local] Abbreviation setRepo := (@Machine.setRepo demo).
#[local] Abbreviation runPagerank := (@Machine.runPagerank demo).
#[local] Abbreviation loadGraphAndRunPagerank :=
  (@Machine.loadGraphAndRunPagerank demo).
#[local] Abbreviation CallLoadGraphWithAdapters :=
  (@Machine.CallLoadGraphWithAdapters demo).
#[local] Abbreviation CallPagerank := (@Machine.CallPagerank demo).
#[local] Abbreviation mkGraphWithAdapters := (@Machine.mkGraphWithAdapters demo).
#[local] Abbreviation mkPagerankOptions := (@Machine.mkPagerankOptions demo).
#[local] Abbreviation quiet := (@Machine.quiet demo).
#[local] Abbreviation keepsInitialized := (@Machine.keepsInitialized demo).
#[local] Abbreviation still := (@id (@Machine.AppState demo)).


Lemma loadGraphAndRunPagerank_chains_witness :
  loadGraphWithAdapters succeeding tt "sourcecred/sourcecred"
  = Resolved (mkGraphWithAdapters 7 tt) ∧
  Forall quiet [still; still; still] ∧
  3 ≤ length [still; still; still] ∧
  exec succeeding [still; still; still] (loadGraphAndRunPagerank tt "prefix")
    readyToLoad
  = mkExecution (Done tt)
      (mkCell
         (INITIALIZED "evaluator" "sourcecred/sourcecred"
            (PAGERANK_EVALUATED (mkGraphWithAdapters 7 tt) 8 NOT_LOADING))
         [])
      [CallLoadGraphWithAdapters tt "sourcecred/sourcecred";
       CallPagerank 7 "evaluator" (mkPagerankOptions true "prefix")].
Proof.
  assert (Forall quiet [still; still; still]) as Hquiet
    by (repeat constructor).
  split; [reflexivity|]. split; [exact Hquiet|]. split; [simpl; lia|].
  apply (loadGraphAndRunPagerank_chains succeeding [still; still; still]
           "evaluator" "sourcecred/sourcecred" NOT_LOADING tt "prefix" []
           (mkGraphWithAdapters 7 tt));
    [reflexivity | exact Hquiet | simpl; lia].
Defined.

Lemma loadGraphAndRunPagerank_skips_loading_witness :
  graphWithAdaptersOf
    (READY_TO_RUN_PAGERANK (mkGraphWithAdapters 7 tt) NOT_LOADING)
  = Some (mkGraphWithAdapters 7 tt) ∧
  exec succeeding [after (setRepo "other")]
    (loadGraphAndRunPagerank tt "prefix") readyToRun
  = exec succeeding [after (setRepo "other")] (runPagerank "prefix")
      readyToRun.
Proof.
  split; [reflexivity|].
  apply (loadGraphAndRunPagerank_skips_loading succeeding
           (after (setRepo "other")) "evaluator" "sourcecred/sourcecred"
           (READY_TO_RUN_PAGERANK (mkGraphWithAdapters 7 tt) NOT_LOADING)
           (mkGraphWithAdapters 7 tt) tt "prefix" []).
  reflexivity.
Defined.

Lemma initialized_never_reverts_witness :
  isInitialized (live readyToLoad) = true ∧
  Forall keepsInitialized [after (setRepo "other"); still] ∧
  isInitialized
    (live (final
       (exec failing [after (setRepo "other"); still]
          (loadGraphAndRunPagerank tt "prefix") readyToLoad)))
  = true.
Proof.
  assert (Forall keepsInitialized [after (setRepo "other"); still])
    as Henv.
  { constructor; [by intros [ee r|ee r sub] Hs|].
    constructor; [by intros s Hs|constructor]. }
  split; [reflexivity|]. split; [exact Henv|].
  apply (initialized_never_reverts failing
           [after (setRepo "other"); still] readyToLoad eq_refl Henv).
Defined.

End MoreConcreteRuns.

Section CliRuns.
Import Cli.

Lemma pagerank_exit_0_witness :
  Demo.pagerank ["sourcecred/sourcecred"]
  = ([CallLoader "sourcecred/sourcecred"; CallPagerankRunner 7;
      CallSaver "sourcecred/sourcecred" 8], Exit 0) ∧
  ([CallLoader "sourcecred/sourcecred"; CallPagerankRunner 7;
    CallSaver "sourcecred/sourcecred" 8]
   = [StdOut "usage: sourcecred pagerank REPO_ID [--help]"] ∨
   ∃ a r g pg,
     ["sourcecred/sourcecred"] = [a] ∧
     Demo.stringToRepoId a = Resolved r ∧
     Demo.loader r = Resolved (SUCCESS g) ∧
     Demo.pagerankRunner g = Resolved pg ∧
     Demo.saver r pg = Resolved tt ∧
     [CallLoader "sourcecred/sourcecred"; CallPagerankRunner 7;
      CallSaver "sourcecred/sourcecred" 8]
     = [CallLoader r; CallPagerankRunner g; CallSaver r pg]).
Proof.
  split; [reflexivity|].
  apply (pagerank_exit_0 "usage: sourcecred pagerank REPO_ID [--help]"
           Demo.stringToRepoId Demo.repoIdToString Demo.loader
           Demo.pagerankRunner Demo.saver ["sourcecred/sourcecred"]).
  reflexivity.
Defined.

Lemma pagerank_exit_1_witness :
  Demo.pagerank ["other/repo"]
  = ([CallLoader "other/repo";
      StdErr "fatal: repository ID other/repo not loaded";
      StdErr "Try running `sourcecred load other/repo` first."], Exit 1) ∧
  (1 = 0 ∨
   (1 = 1 ∧
    Forall (λ e, isStdOut e = false)
      [CallLoader (Graph := nat) (PagerankGraph := nat) "other/repo";
       StdErr "fatal: repository ID other/repo not loaded";
       StdErr "Try running `sourcecred load other/repo` first."] ∧
    Exists (λ e, isStdErr e = true)
      [CallLoader (Graph := nat) (PagerankGraph := nat) "other/repo";
       StdErr "fatal: repository ID other/repo not loaded";
       StdErr "Try running `sourcecred load other/repo` first."] ∧
    Forall (λ e, isCall e = true → ∃ r, e = CallLoader r)
      [CallLoader (Graph := nat) (PagerankGraph := nat) "other/repo";
       StdErr "fatal: repository ID other/repo not loaded";
       StdErr "Try running `sourcecred load other/repo` first."])).
Proof.
  split; [reflexivity|].
  apply (pagerank_exit_1 "usage: sourcecred pagerank REPO_ID [--help]"
           Demo.stringToRepoId Demo.repoIdToString Demo.loader
           Demo.pagerankRunner Demo.saver ["other/repo"]).
  reflexivity.
Defined.

Lemma pagerank_bad_arguments_witness :
  Demo.pagerank ["sourcecred"; "--help"]
  = ([], Threw "Invalid repo string: sourcecred") ∧
  Demo.pagerank ["sourcecred/sourcecred"; "sourcecred"; "--help"]
  = ([StdErr "fatal: multiple repository IDs provided";
      StdErr "fatal: run 'sourcecred help pagerank' for help"], Exit 1).
Proof.
  destruct (pagerank_bad_arguments
              "usage: sourcecred pagerank REPO_ID [--help]"
              Demo.stringToRepoId Demo.repoIdToString Demo.loader
              Demo.pagerankRunner Demo.saver) as (Hbad & Htwo & _).
  split.
  - apply (Hbad "sourcecred" "Invalid repo string: sourcecred" ["--help"]);
      [discriminate | reflexivity].
  - apply (Htwo "sourcecred/sourcecred" "sourcecred/sourcecred"
             "sourcecred" ["--help"]);
      [discriminate | reflexivity | discriminate].
Defined.

End CliRuns.
